(** * Extra HID (Circle Pad Pro) IR peripheral: protocol logic

    A shallow embedding of [src/core/hle/service/ir/extra_hid.cpp] and the
    properties of its request dispatcher, calibration window, status packet
    codec and self-rescheduling status broadcast.

    Conventions of the embedding:
    - wire bytes ([u8] in [std::vector<u8>]) are [Byte.byte];
    - C++ integers are [Z], with the wrap-around of their width written out;
    - [float] is IEEE-754 binary32, as [spec_float] with [prec = 24] and
      [emax = 128], round-to-nearest-even, one rounding per operation;
    - an access outside a [std::vector] and a float-to-integer conversion
      whose truncated value does not fit are undefined behaviour in C++;
      both are [None] in the error monad below;
    - the device, the scheduler queue, the settings, the live input and the
      ordered log of calls made to external services form one [World];
      [LOG_ERROR] has no effect on it. *)

From Stdlib Require Import ZArith List Bool Lia.
From Stdlib Require Import Permutation.
From Stdlib Require Import Strings.Byte Strings.String.
From Stdlib Require Import Floats.SpecFloat.
From Stdlib Require Import QArith Qround.
Import ListNotations.
Open Scope Z_scope.

(** ** Error monad for undefined behaviour *)

Definition bind {A B : Type} (m : option A) (k : A -> option B) : option B :=
  match m with
  | Some a => k a
  | None => None
  end.

Notation "x <- m ;; k" := (bind m (fun x => k))
  (at level 61, m at next level, right associativity).

(** ** Fixed-width integers and helpers of [common/] *)

Module Common.

Definition u8_to_Z (b : byte) : Z := Z.of_N (Byte.to_N b).

(** [static_cast<u8>] of an integer: reduction modulo 2^8. *)
Definition Z_to_u8 (z : Z) : byte :=
  match Byte.of_N (Z.to_N (z mod 256)) with
  | Some b => b
  | None => x00
  end.

Definition wrap_u16 (z : Z) : Z := z mod 2 ^ 16.
Definition wrap_u32 (z : Z) : Z := z mod 2 ^ 32.

(** Two's complement reduction to [s64]. *)
Definition wrap_s64 (z : Z) : Z := (z + 2 ^ 63) mod 2 ^ 64 - 2 ^ 63.

Definition INT_MIN : Z := - 2 ^ 31.
Definition INT_MAX : Z := 2 ^ 31 - 1.

(** [data[i]] on a [std::vector]: defined only inside the vector. *)
Definition vec_at {A : Type} (v : list A) (i : nat) : option A := nth_error v i.

(** The iterator range [v.begin() + lo, v.begin() + hi): defined only when
    [lo <= hi <= v.size()]. *)
Definition vec_range {A : Type} (v : list A) (lo hi : nat) : option (list A) :=
  if (Nat.leb lo hi && Nat.leb hi (List.length v))%bool
  then Some (firstn (hi - lo) (skipn lo v))
  else None.

(** [std::memcpy(&x, v.data() + i, sizeof(u16))] on a little-endian host. *)
Definition read_u16_le (v : list byte) (i : nat) : option Z :=
  lo <- vec_at v i ;;
  hi <- vec_at v (S i) ;;
  Some (u8_to_Z lo + 256 * u8_to_Z hi).

(** Modelled from the spec: [Common::AlignDown] of [common/alignment.h] is
    not under src/.  The spec says the value is "rounded down to the
    nearest multiple" of the alignment; for an unsigned [T] that is
    [static_cast<T>(value - value % size)], here at [T = u16]. *)
Definition AlignDown (value size : Z) : Z := wrap_u16 (value - value mod size).

(** Modelled from the spec: [BitField<position, bits, T>] of
    [common/bit_field.h] is not under src/.  The spec lays the fields out
    "low bits first" inside their storage word: a field occupies [bits]
    bits starting at bit [position].  [Assign] replaces those bits of the
    storage and keeps the others; [Value] reads them back. *)
Definition BitField_Mask (position bits : Z) : Z := Z.shiftl (Z.ones bits) position.

Definition BitField_Assign (position bits : Z) (storage value : Z) : Z :=
  Z.lor (Z.ldiff storage (BitField_Mask position bits))
        (Z.land (Z.shiftl value position) (BitField_Mask position bits)).

Definition BitField_Value (position bits : Z) (storage : Z) : Z :=
  Z.shiftr (Z.land storage (BitField_Mask position bits)) position.

(** The four bytes of a [u32] in memory, little-endian host. *)
Definition u32_bytes_le (w : Z) : list byte :=
  [ Z_to_u8 w; Z_to_u8 (Z.shiftr w 8); Z_to_u8 (Z.shiftr w 16); Z_to_u8 (Z.shiftr w 24) ].

Definition le_bytes_u32 (b0 b1 b2 b3 : byte) : Z :=
  u8_to_Z b0 + 2 ^ 8 * u8_to_Z b1 + 2 ^ 16 * u8_to_Z b2 + 2 ^ 24 * u8_to_Z b3.

End Common.

(** ** Single-precision floating point *)

Module Float32.

Definition prec : Z := 24.
Definition emax : Z := 128.

Definition float32 : Type := spec_float.

(** Conversion of an [int] to [float] (exact below 2^24 in magnitude). *)
Definition of_int (n : Z) : float32 := binary_normalize prec emax n 0 false.

Definition mul : float32 -> float32 -> float32 := SFmul prec emax.
Definition add : float32 -> float32 -> float32 := SFadd prec emax.

(** Integer part of [m * 2^e], for a positive mantissa. *)
Definition trunc_mag (m : positive) (e : Z) : Z :=
  if 0 <=? e then Z.shiftl (Zpos m) e else Z.shiftr (Zpos m) (- e).

(** [static_cast<u32>(f)]: the fractional part is discarded; the result is
    defined only when the truncated value is representable in [u32]. *)
Definition to_u32 (f : float32) : option Z :=
  match f with
  | S754_zero _ => Some 0
  | S754_finite s m e =>
      let t := trunc_mag m e in
      if s then (if t =? 0 then Some 0 else None)
      else (if t <? 2 ^ 32 then Some t else None)
  | S754_infinity _ | S754_nan => None
  end.

(** The exact rational value [m * 2^e] of a mantissa and an exponent, and
    of a float (zero for the values that are not finite). *)
Definition magnitude (m : positive) (e : Z) : Q :=
  if 0 <=? e then inject_Z (Zpos m * 2 ^ e)
  else Qmake (Zpos m) (Z.to_pos (2 ^ (- e))).

Definition to_Q (f : float32) : Q :=
  match f with
  | S754_finite s m e => if s then Qopp (magnitude m e) else magnitude m e
  | _ => 0%Q
  end.

(** Truncation toward zero of a rational. *)
Definition Qtrunc (q : Q) : Z :=
  if Qle_bool 0 q then Qfloor q else Qceiling q.

(** [|f| <= 1] for a zero or finite float: the interval [-1.0, 1.0] of a
    normalised stick axis. *)
Definition in_unit_range (f : float32) : bool :=
  match f with
  | S754_zero _ => true
  | S754_finite _ m e => (e <=? 0) && (Zpos m <=? 2 ^ (- e))
  | S754_infinity _ | S754_nan => false
  end.

(** Rounding to the nearest integer, ties away from zero ([std::round]). *)
Definition Qround (q : Q) : Z :=
  if Qle_bool 0 q then Qfloor (q + (1 # 2)) else - Qfloor (- q + (1 # 2)).

End Float32.

(** ** The event scheduler *)

Module CoreTiming.

(** Modelled from the spec: [core/core_timing.cpp] is not under src/.  The
    spec describes the scheduling dependency as [ScheduleAfter(duration)],
    [Cancel(handle)] (safe when nothing is pending) and a callback that is
    told how late it fires.  The model is the queue of pending events, each
    with its absolute deadline, its registered event type and its user
    data, kept in deadline order, next to the current time. *)
Record Event := mkEvent { time : Z; type : Z; userdata : Z }.

Record State := mkState { global_timer : Z; event_queue : list Event }.

Fixpoint AddEventToQueue (ne : Event) (q : list Event) : list Event :=
  match q with
  | [] => [ne]
  | ev :: rest =>
      if time ne <? time ev then ne :: ev :: rest
      else ev :: AddEventToQueue ne rest
  end.

Definition ScheduleEvent (cycles_into_future : Z) (event_type : Z) (ud : Z)
           (s : State) : State :=
  {| global_timer := global_timer s;
     event_queue :=
       AddEventToQueue (mkEvent (global_timer s + cycles_into_future) event_type ud)
                       (event_queue s) |}.

Definition matches (event_type ud : Z) (ev : Event) : bool :=
  (type ev =? event_type) && (userdata ev =? ud).

Definition UnscheduleEvent (event_type : Z) (ud : Z) (s : State) : State :=
  {| global_timer := global_timer s;
     event_queue := filter (fun ev => negb (matches event_type ud ev)) (event_queue s) |}.

(** The pending events of one type and user data, in deadline order. *)
Definition pending (event_type ud : Z) (s : State) : list Event :=
  filter (matches event_type ud) (event_queue s).

(** The pending events of everybody else. *)
Definition others (event_type ud : Z) (s : State) : list Event :=
  filter (fun ev => negb (matches event_type ud ev)) (event_queue s).

End CoreTiming.

(** ** Settings and input devices *)

Module Settings.

(** [Settings::values]: the parameter strings of the three logical inputs
    this peripheral uses. *)
Record Values := mkValues {
  buttons_ZL : string;
  buttons_ZR : string;
  analogs_CStick : string
}.

End Settings.

Module Input.

(** An input device is the parameter string it was created from; its
    status is whatever the live input reports for that source. *)
Definition ButtonDevice : Type := string.
Definition AnalogDevice : Type := string.

Record Live := mkLive {
  button_status : string -> bool;
  analog_status : string -> Float32.float32 * Float32.float32
}.

End Input.

(** ** The peripheral *)

Module IR.

Import Common.

Inductive RequestID := ReadHIDStatus | ReadCalibrationData.

(** [static_cast<RequestID>(b)] followed by the [switch]: the enumerator a
    byte names, if any ([None] takes the [default] branch). *)
Definition RequestID_of_u8 (b : byte) : option RequestID :=
  match u8_to_Z b with
  | 1 => Some ReadHIDStatus
  | 2 => Some ReadCalibrationData
  | _ => None
  end.

Module ResponseID.
Definition ReadHIDStatus : Z := 0x10.
Definition ReadCalibrationData : Z := 0x11.
End ResponseID.

(** Calls the peripheral makes to its collaborators, in program order. *)
Inductive Call :=
| send_func (packet : list byte)
| ScheduleEvent (cycles_into_future : Z) (event_type : Z)
| UnscheduleEvent (event_type : Z) (ud : Z)
| CreateButtonDevice (params : string)
| CreateAnalogDevice (params : string)
| ButtonGetStatus (device : Input.ButtonDevice)
| AnalogGetStatus (device : Input.AnalogDevice).

Record ExtraHID := mkExtraHID {
  hid_period : byte;
  calibration_data : list byte;
  send_callback : Z;
  zl : Input.ButtonDevice;
  zr : Input.ButtonDevice;
  c_stick : Input.AnalogDevice;
  is_device_reload_pending : bool
}.

Record World := mkWorld {
  dev : ExtraHID;
  timing : CoreTiming.State;
  settings : Settings.Values;
  live : Input.Live;
  (** indeterminate contents of the two storage words of the uninitialised
      local [response] of [SendHIDStatus] *)
  stack_garbage : Z * Z;
  calls : list Call
}.

Definition set_dev (d : ExtraHID) (w : World) : World :=
  mkWorld d (timing w) (settings w) (live w) (stack_garbage w) (calls w).

Definition set_timing (t : CoreTiming.State) (w : World) : World :=
  mkWorld (dev w) t (settings w) (live w) (stack_garbage w) (calls w).

Definition call (c : Call) (w : World) : World :=
  mkWorld (dev w) (timing w) (settings w) (live w) (stack_garbage w) (calls w ++ [c]).

Definition set_hid_period (p : byte) (d : ExtraHID) : ExtraHID :=
  mkExtraHID p (calibration_data d) (send_callback d) (zl d) (zr d) (c_stick d)
             (is_device_reload_pending d).

Definition set_devices (l r : Input.ButtonDevice) (c : Input.AnalogDevice)
           (d : ExtraHID) : ExtraHID :=
  mkExtraHID (hid_period d) (calibration_data d) (send_callback d) l r c
             (is_device_reload_pending d).

Definition set_reload_pending (b : bool) (d : ExtraHID) : ExtraHID :=
  mkExtraHID (hid_period d) (calibration_data d) (send_callback d) (zl d) (zr d)
             (c_stick d) b.

(** The packets handed to [send_func], oldest first. *)
Fixpoint sent_packets (cs : list Call) : list (list byte) :=
  match cs with
  | [] => []
  | send_func p :: rest => p :: sent_packets rest
  | _ :: rest => sent_packets rest
  end.

(** The factory calibration blob (retrieved from a New 3DS). *)
Definition factory_calibration_data : list byte :=
  [ (* 0x00 *) x00; x00; x08; x80; x85; xeb; x11; x3f;
    (* 0x08 *) x85; xeb; x11; x3f; xff; xff; xff; xf5;
    (* 0x10 *) xff; x00; x08; x80; x85; xeb; x11; x3f;
    (* 0x18 *) x85; xeb; x11; x3f; xff; xff; xff; x65;
    (* 0x20 *) xff; x00; x08; x80; x85; xeb; x11; x3f;
    (* 0x28 *) x85; xeb; x11; x3f; xff; xff; xff; x65;
    (* 0x30 *) xff; x00; x08; x80; x85; xeb; x11; x3f;
    (* 0x38 *) x85; xeb; x11; x3f; xff; xff; xff; x65 ].

(** [calibration_data.size()] of a [std::array<u8, 0x40>]. *)
Definition calibration_data_size : Z := 0x40.

Definition C_STICK_CENTER : Z := 0x800.
Definition C_STICK_RADIUS : Z := 0x7FF.

(** [C_STICK_CENTER + C_STICK_RADIUS * axis]: the two [int] constants are
    converted to [float], the product and the sum are single-precision
    operations. *)
Definition scale_axis (axis : Float32.float32) : Float32.float32 :=
  Float32.add (Float32.of_int C_STICK_CENTER)
              (Float32.mul (Float32.of_int C_STICK_RADIUS) axis).

(** [static_cast<u32>(C_STICK_CENTER + C_STICK_RADIUS * axis)]. *)
Definition quantize_axis (axis : Float32.float32) : option Z :=
  Float32.to_u32 (scale_axis axis).

Definition LoadInputDevices (w : World) : World :=
  let l := Settings.buttons_ZL (settings w) in
  let w := call (CreateButtonDevice l) w in
  let r := Settings.buttons_ZR (settings w) in
  let w := call (CreateButtonDevice r) w in
  let c := Settings.analogs_CStick (settings w) in
  let w := call (CreateAnalogDevice c) w in
  set_dev (set_devices l r c (dev w)) w.

Definition ReloadInputDevices (w : World) : World :=
  set_dev (set_reload_pending true (dev w)) w.

(** The constructor: the event type handle is the one [RegisterEvent]
    returns.  Neither [hid_period] nor [is_device_reload_pending] is
    initialised by the constructor, so their first values are arbitrary. *)
Definition construct (registered : Z) (uninit_period : byte) (uninit_pending : bool)
           (t : CoreTiming.State) (s : Settings.Values) (i : Input.Live)
           (garbage : Z * Z) : World :=
  let d := mkExtraHID uninit_period factory_calibration_data registered
                      EmptyString EmptyString EmptyString uninit_pending in
  LoadInputDevices (mkWorld d t s i garbage []).

Definition Connect (w : World) : World := w.

Definition Disconnect (w : World) : World :=
  let w := call (UnscheduleEvent (send_callback (dev w)) 0) w in
  set_timing (CoreTiming.UnscheduleEvent (send_callback (dev w)) 0 (timing w)) w.

Section WithClock.

(** [msToCycles] of [core/core_timing.h] is not under src/: the
    conversion of milliseconds to scheduler cycles is a parameter. *)
Variable msToCycles : Z -> Z.

Definition HandleReadHIDStatusRequest (data : list byte) (w : World) : option World :=
  if negb (Nat.eqb (List.length data) 3) then Some w
  else
    let w := call (UnscheduleEvent (send_callback (dev w)) 0) w in
    let w := set_timing (CoreTiming.UnscheduleEvent (send_callback (dev w)) 0 (timing w)) w in
    p <- vec_at data 1 ;;
    let w := set_dev (set_hid_period p (dev w)) w in
    let cycles := msToCycles (u8_to_Z (hid_period (dev w))) in
    let w := call (ScheduleEvent cycles (send_callback (dev w))) w in
    Some (set_timing (CoreTiming.ScheduleEvent cycles (send_callback (dev w)) 0 (timing w)) w).

Definition HandleReadCalibrationDataRequest (data : list byte) (w : World) : option World :=
  if negb (Nat.eqb (List.length data) 6) then Some w
  else
    offset <- read_u16_le data 2 ;;
    size <- read_u16_le data 4 ;;
    let offset := AlignDown offset 16 in
    let size := AlignDown size 16 in
    if offset + size >? calibration_data_size then Some w
    else
      let response := [Z_to_u8 ResponseID.ReadCalibrationData] in
      echoed <- vec_range data 2 6 ;;
      let response := response ++ echoed in
      window <- vec_range (calibration_data (dev w))
                          (Z.to_nat offset) (Z.to_nat (offset + size)) ;;
      let response := response ++ window in
      Some (call (send_func response) w).

Definition Receive (data : list byte) (w : World) : option World :=
  opcode <- vec_at data 0 ;;
  match RequestID_of_u8 opcode with
  | Some ReadHIDStatus => HandleReadHIDStatusRequest data w
  | Some ReadCalibrationData => HandleReadCalibrationDataRequest data w
  | None => Some w
  end.

(** The packed local [response]: the 32-bit word of the [c_stick] union,
    the 8-bit word of the [buttons] union, and [unknown]. *)
Definition encode_status (garbage : Z * Z) (fx fy : Z) (zl_pressed zr_pressed : bool)
  : list byte :=
  let c := wrap_u32 (fst garbage) in
  let b := snd garbage mod 2 ^ 8 in
  let c := BitField_Assign 0 8 c ResponseID.ReadHIDStatus in
  let c := BitField_Assign 8 12 c fx in
  let c := BitField_Assign 20 12 c fy in
  let b := BitField_Assign 0 5 b 0x1F in
  let b := BitField_Assign 5 1 b (Z.b2z (negb zl_pressed)) in
  let b := BitField_Assign 6 1 b (Z.b2z (negb zr_pressed)) in
  let b := BitField_Assign 7 1 b 1 in
  let unknown := 0 in
  u32_bytes_le c ++ [Z_to_u8 b; Z_to_u8 unknown].

Definition SendHIDStatus (cycles_late : Z) (w : World) : option World :=
  let w :=
    if is_device_reload_pending (dev w)
    then LoadInputDevices (set_dev (set_reload_pending false (dev w)) w)
    else w in
  let w := call (AnalogGetStatus (c_stick (dev w))) w in
  let '(x, y) := Input.analog_status (live w) (c_stick (dev w)) in
  fx <- quantize_axis x ;;
  fy <- quantize_axis y ;;
  let w := call (ButtonGetStatus (zl (dev w))) w in
  let zl_pressed := Input.button_status (live w) (zl (dev w)) in
  let w := call (ButtonGetStatus (zr (dev w))) w in
  let zr_pressed := Input.button_status (live w) (zr (dev w)) in
  let response_buffer := encode_status (stack_garbage w) fx fy zl_pressed zr_pressed in
  let w := call (send_func response_buffer) w in
  let cycles := wrap_s64 (msToCycles (u8_to_Z (hid_period (dev w))) - cycles_late) in
  let w := call (ScheduleEvent cycles (send_callback (dev w))) w in
  Some (set_timing (CoreTiming.ScheduleEvent cycles (send_callback (dev w)) 0 (timing w)) w).

End WithClock.

End IR.

Import Common IR.

(** ** Wording of the specification *)

(** "Rounded down to the nearest multiple of 16". *)
Definition floor16 (z : Z) : Z := 16 * (z / 16).

(** The sub-sequence [blob[lo : hi]]. *)
Definition slice {A : Type} (blob : list A) (lo hi : Z) : list A :=
  firstn (Z.to_nat (hi - lo)) (skipn (Z.to_nat lo) blob).

(** The little-endian 16-bit value of two wire bytes. *)
Definition le16 (lo hi : byte) : Z := u8_to_Z lo + 256 * u8_to_Z hi.

(** The quantisation the specification words: the exact value
    [0x800 + 0x7FF * a] rounded to the nearest integer, truncated to 12 bits. *)
Definition quantize_spec (axis : Float32.float32) : Z :=
  Float32.Qround (inject_Z C_STICK_CENTER + inject_Z C_STICK_RADIUS * Float32.to_Q axis) mod 2 ^ 12.

(** ** The parts of a broadcast tick *)

(** The world after the tick has consumed the pending-reload flag. *)
Definition after_reload (w : World) : World :=
  if is_device_reload_pending (dev w)
  then LoadInputDevices (set_dev (set_reload_pending false (dev w)) w)
  else w.

(** What the tick samples: the status of the handles it holds after the
    reload step. *)
Definition sampled_axes (w : World) : Float32.float32 * Float32.float32 :=
  Input.analog_status (live w) (c_stick (dev (after_reload w))).

Definition sampled_zl (w : World) : bool :=
  Input.button_status (live w) (zl (dev (after_reload w))).

Definition sampled_zr (w : World) : bool :=
  Input.button_status (live w) (zr (dev (after_reload w))).

(** Both sampled axes lie in [-1.0, 1.0], as the input layer promises. *)
Definition axes_in_range (w : World) : bool :=
  Float32.in_unit_range (fst (sampled_axes w)) &&
  Float32.in_unit_range (snd (sampled_axes w)).

(** The calls of the reload step: three device creations when the flag was
    set, none otherwise. *)
Definition reload_calls (w : World) : list Call :=
  if is_device_reload_pending (dev w)
  then [ CreateButtonDevice (Settings.buttons_ZL (settings w));
         CreateButtonDevice (Settings.buttons_ZR (settings w));
         CreateAnalogDevice (Settings.analogs_CStick (settings w)) ]
  else [].

(** The calls of the sampling, emission and rescheduling part of a tick. *)
Definition tick_calls (w : World) (packet : list byte) (cycles : Z) : list Call :=
  [ AnalogGetStatus (c_stick (dev (after_reload w)));
    ButtonGetStatus (zl (dev (after_reload w)));
    ButtonGetStatus (zr (dev (after_reload w)));
    send_func packet;
    ScheduleEvent cycles (send_callback (dev w)) ].

(** The period of the device converted by the clock, as [SendHIDStatus]
    passes it on. *)
Definition period_cycles (msToCycles : Z -> Z) (w : World) : Z :=
  msToCycles (u8_to_Z (hid_period (dev w))).

(** The world a tick leaves behind, given the two quantised axes. *)
Definition tick_result (msToCycles : Z -> Z) (cycles_late : Z) (w : World) (fx fy : Z) : World :=
  let cycles := wrap_s64 (period_cycles msToCycles w - cycles_late) in
  let packet := encode_status (stack_garbage w) fx fy (sampled_zl w) (sampled_zr w) in
  mkWorld (dev (after_reload w))
          (CoreTiming.ScheduleEvent cycles (send_callback (dev w)) 0 (timing w))
          (settings w) (live w) (stack_garbage w)
          (calls (after_reload w) ++ tick_calls w packet cycles).

(** ** Shifted mantissas *)

(** Shifting [k] bits out of [X]: the quotient, and round/sticky bits that
    are clear when nothing was lost. *)
Definition shifted (X k : Z) (mrs : shr_record) : Prop :=
  shr_m mrs = X / 2 ^ k /\
  (X mod 2 ^ k = 0 -> shr_r mrs = false /\ shr_s mrs = false).

(** ** A concrete instance

    A clock conversion for a core running at 268123480 cycles per second,
    and a freshly constructed peripheral. *)

Definition example_clock_rate : Z := 268123480.

Definition example_msToCycles (ms : Z) : Z := example_clock_rate * ms / 1000.

Definition example_live : Input.Live :=
  Input.mkLive (fun params => String.eqb params "zl")
               (fun _ => (S754_zero false, Float32.of_int (-1))).

Definition example_world : World :=
  construct 7 x00 false
            (CoreTiming.mkState 1000 [CoreTiming.mkEvent 1500 3 0])
            (Settings.mkValues "zl" "zr" "c_stick")
            example_live (12345678901, 77).

(** The same peripheral after a status-configuration request has set its
    period to 5 ms. *)
Definition armed_world : World :=
  match Receive example_msToCycles [x01; x05; x00] example_world with
  | Some w => w
  | None => example_world
  end.

(** The armed peripheral after the input configuration has changed and a
    reload has been requested, with the stick held at a quarter of its range
    on both axes and ZR pressed. *)
Definition quarter : Float32.float32 := S754_finite false 8388608 (-25).

Definition reconfigured_world : World :=
  let w := ReloadInputDevices armed_world in
  mkWorld (dev w) (timing w)
          (Settings.mkValues "zl2" "zr2" "c_stick2")
          (Input.mkLive (fun params => String.eqb params "zr2")
                        (fun _ => (quarter, quarter)))
          (stack_garbage w) (calls w).

(** ** Histories

    What can happen to a peripheral between its construction and its
    destruction: the calls of its public interface, the tick the scheduler
    delivers, and the changes of its surroundings (the live input, the
    settings and the scheduler belong to other components and change under
    it: time passes, other components schedule their events, the scheduler
    removes the events it fires). *)

Definition set_live (l : Input.Live) (w : World) : World :=
  mkWorld (dev w) (timing w) (settings w) l (stack_garbage w) (calls w).

Definition set_settings (s : Settings.Values) (w : World) : World :=
  mkWorld (dev w) (timing w) s (live w) (stack_garbage w) (calls w).

Definition set_stack_garbage (g : Z * Z) (w : World) : World :=
  mkWorld (dev w) (timing w) (settings w) (live w) g (calls w).

Inductive Operation :=
| OpConnect
| OpDisconnect
| OpReceive (data : list byte)
| OpSendHIDStatus (cycles_late : Z)
| OpReloadInputDevices
| EnvInput (l : Input.Live)
| EnvSettings (s : Settings.Values)
| EnvStack (g : Z * Z)
| EnvTiming (t : CoreTiming.State).

Definition step (msToCycles : Z -> Z) (op : Operation) (w : World) : option World :=
  match op with
  | OpConnect => Some (Connect w)
  | OpDisconnect => Some (Disconnect w)
  | OpReceive data => Receive msToCycles data w
  | OpSendHIDStatus cycles_late => SendHIDStatus msToCycles cycles_late w
  | OpReloadInputDevices => Some (ReloadInputDevices w)
  | EnvInput l => Some (set_live l w)
  | EnvSettings s => Some (set_settings s w)
  | EnvStack g => Some (set_stack_garbage g w)
  | EnvTiming t => Some (set_timing t w)
  end.

Fixpoint run (msToCycles : Z -> Z) (ops : list Operation) (w : World) : option World :=
  match ops with
  | [] => Some w
  | op :: rest => w' <- step msToCycles op w ;; run msToCycles rest w'
  end.

(** The two shapes of a packet on the wire: a status response (opcode 0x10,
    six bytes, battery and R bits set, last byte zero) and a calibration
    response (opcode 0x11, four echoed bytes, then 0, 16, 32, 48 or 64
    calibration bytes). *)
Definition status_response_shape (packet : list byte) : bool :=
  match packet with
  | [b0; _; _; _; st; b5] =>
      (u8_to_Z b0 =? 0x10) && (Z.land (u8_to_Z st) 0x9F =? 0x9F) && (u8_to_Z b5 =? 0)
  | _ => false
  end.

Definition calibration_response_shape (packet : list byte) : bool :=
  match packet with
  | b0 :: _ :: _ :: _ :: _ :: window =>
      (u8_to_Z b0 =? 0x11) &&
      (Nat.eqb (Nat.modulo (List.length window) 16) 0) &&
      (Nat.leb (List.length window) 64)
  | _ => false
  end.

Definition response_shape (packet : list byte) : bool :=
  status_response_shape packet || calibration_response_shape packet.

(** The calls a request can make: none, one send, or one cancellation
    followed by one scheduling. *)
Definition request_calls_shape (cs : list Call) : bool :=
  match cs with
  | [] => true
  | [send_func _] => true
  | [UnscheduleEvent _ _; ScheduleEvent _ _] => true
  | _ => false
  end.

(** The destructor: [~ExtraHID() { Disconnect(); }]. *)
Definition destroy (w : World) : World := Disconnect w.

(** A history that exercises every operation. *)
Definition example_history : list Operation :=
  [ OpConnect; OpReceive [x01; x05; x00]; OpSendHIDStatus 3;
    OpReceive [x02; x00; x10; x00; x20; x00];
    EnvSettings (Settings.mkValues "zl2" "zr2" "c_stick2");
    EnvInput (Input.mkLive (fun _ => true) (fun _ => (quarter, Float32.of_int 1)));
    OpReloadInputDevices; EnvStack (5, 6); OpSendHIDStatus 0;
    OpReceive [x07]; OpDisconnect;
    EnvTiming (CoreTiming.mkState 5000 [CoreTiming.mkEvent 5100 3 0]);
    OpReceive [x01; x10; x00] ].

(** ** Bytes *)

Lemma u8_to_Z_range (b : byte) : 0 <= u8_to_Z b < 256.
Proof.
  unfold u8_to_Z. pose proof (Byte.to_N_bounded b) as H. lia.
Qed.

Lemma Z_to_u8_to_Z (b : byte) : Z_to_u8 (u8_to_Z b) = b.
Proof.
  unfold Z_to_u8. pose proof (u8_to_Z_range b) as H.
  rewrite Z.mod_small by lia. unfold u8_to_Z.
  rewrite N2Z.id, Byte.of_to_N. reflexivity.
Qed.

Lemma u8_to_Z_to_u8 (z : Z) : u8_to_Z (Z_to_u8 z) = z mod 256.
Proof.
  unfold Z_to_u8, u8_to_Z.
  pose proof (Z.mod_pos_bound z 256 ltac:(lia)) as H.
  destruct (Byte.of_N (Z.to_N (z mod 256))) as [b|] eqn:E.
  - apply Byte.to_of_N in E. rewrite E. lia.
  - apply Byte.of_N_None_iff in E. lia.
Qed.

Lemma le16_range (lo hi : byte) : 0 <= le16 lo hi < 2 ^ 16.
Proof.
  unfold le16. pose proof (u8_to_Z_range lo). pose proof (u8_to_Z_range hi).
  change (2 ^ 16) with 65536. lia.
Qed.

(** ** Alignment *)

Lemma AlignDown_16 (z : Z) : 0 <= z < 2 ^ 16 -> AlignDown z 16 = floor16 z.
Proof.
  intros Hz. unfold AlignDown, wrap_u16, floor16.
  pose proof (Z.div_mod z 16 ltac:(lia)) as Hdm.
  pose proof (Z.mod_pos_bound z 16 ltac:(lia)) as Hm.
  rewrite Z.mod_small; lia.
Qed.

Lemma floor16_spec (z : Z) :
  0 <= z -> (16 | floor16 z) /\ 0 <= floor16 z <= z /\ z - floor16 z < 16.
Proof.
  intros Hz. unfold floor16.
  pose proof (Z.div_mod z 16 ltac:(lia)) as Hdm.
  pose proof (Z.mod_pos_bound z 16 ltac:(lia)) as Hm.
  pose proof (Z.div_pos z 16 Hz ltac:(lia)) as Hq.
  split; [exists (z / 16); lia | lia].
Qed.

(** ** Vectors *)

Lemma vec_range_in_bounds {A : Type} (v : list A) (lo hi : Z) :
  0 <= lo <= hi -> hi <= Z.of_nat (List.length v) ->
  vec_range v (Z.to_nat lo) (Z.to_nat hi) = Some (slice v lo hi).
Proof.
  intros Hlo Hhi. unfold vec_range, slice.
  replace (Nat.leb (Z.to_nat lo) (Z.to_nat hi)) with true
    by (symmetry; apply Nat.leb_le; lia).
  replace (Nat.leb (Z.to_nat hi) (List.length v)) with true
    by (symmetry; apply Nat.leb_le; lia).
  simpl. f_equal. f_equal. lia.
Qed.

Lemma slice_length {A : Type} (v : list A) (lo hi : Z) :
  0 <= lo <= hi -> hi <= Z.of_nat (List.length v) ->
  Z.of_nat (List.length (slice v lo hi)) = hi - lo.
Proof.
  intros Hlo Hhi. unfold slice.
  rewrite length_firstn, length_skipn. lia.
Qed.

Lemma slice_nth {A : Type} (v : list A) (lo hi : Z) (i : nat) :
  0 <= lo -> Z.of_nat i < hi - lo ->
  nth_error (slice v lo hi) i = nth_error v (Z.to_nat lo + i).
Proof.
  intros Hlo Hi. unfold slice.
  rewrite nth_error_firstn.
  replace (Nat.ltb i (Z.to_nat (hi - lo))) with true
    by (symmetry; apply Nat.ltb_lt; lia).
  apply nth_error_skipn.
Qed.

(** ** Calibration window *)

Lemma read_u16_le_2 (b0 b1 ol oh sl sh : byte) :
  read_u16_le [b0; b1; ol; oh; sl; sh] 2 = Some (le16 ol oh).
Proof. reflexivity. Qed.

Lemma read_u16_le_4 (b0 b1 ol oh sl sh : byte) :
  read_u16_le [b0; b1; ol; oh; sl; sh] 4 = Some (le16 sl sh).
Proof. reflexivity. Qed.

Lemma calibration_request_unfold (w : World) (b0 b1 ol oh sl sh : byte) :
  HandleReadCalibrationDataRequest [b0; b1; ol; oh; sl; sh] w =
  let offset := floor16 (le16 ol oh) in
  let size := floor16 (le16 sl sh) in
  if offset + size >? calibration_data_size then Some w
  else
    window <- vec_range (calibration_data (dev w))
                        (Z.to_nat offset) (Z.to_nat (offset + size)) ;;
    Some (call (send_func ([x11] ++ [ol; oh; sl; sh] ++ window)) w).
Proof.
  unfold HandleReadCalibrationDataRequest.
  change (negb (Nat.eqb (List.length [b0; b1; ol; oh; sl; sh]) 6)) with false.
  cbv iota.
  rewrite read_u16_le_2, read_u16_le_4. cbn [bind].
  rewrite !AlignDown_16 by apply le16_range.
  cbv zeta.
  destruct (floor16 (le16 ol oh) + floor16 (le16 sl sh) >? calibration_data_size);
    reflexivity.
Qed.

Lemma calibration_request_rejected (w : World) (b0 b1 ol oh sl sh : byte) :
  floor16 (le16 ol oh) + floor16 (le16 sl sh) > 64 ->
  HandleReadCalibrationDataRequest [b0; b1; ol; oh; sl; sh] w = Some w.
Proof.
  intros Hbig. rewrite calibration_request_unfold.
  cbv zeta. unfold calibration_data_size.
  replace (floor16 (le16 ol oh) + floor16 (le16 sl sh) >? 64) with true
    by (symmetry; apply Z.gtb_lt; lia).
  reflexivity.
Qed.

Lemma calibration_request_served (w : World) (b0 b1 ol oh sl sh : byte) :
  List.length (calibration_data (dev w)) = 64%nat ->
  floor16 (le16 ol oh) + floor16 (le16 sl sh) <= 64 ->
  HandleReadCalibrationDataRequest [b0; b1; ol; oh; sl; sh] w =
  Some (call (send_func
                (x11 :: [ol; oh; sl; sh] ++
                 slice (calibration_data (dev w)) (floor16 (le16 ol oh))
                       (floor16 (le16 ol oh) + floor16 (le16 sl sh)))) w).
Proof.
  intros Hlen Hfit.
  pose proof (le16_range ol oh) as Ho. pose proof (le16_range sl sh) as Hs.
  destruct (floor16_spec (le16 ol oh) ltac:(lia)) as (_ & Ho16 & _).
  destruct (floor16_spec (le16 sl sh) ltac:(lia)) as (_ & Hs16 & _).
  rewrite calibration_request_unfold.
  cbv zeta. unfold calibration_data_size.
  replace (floor16 (le16 ol oh) + floor16 (le16 sl sh) >? 64) with false
    by (symmetry; rewrite Z.gtb_ltb; apply Z.ltb_ge; lia).
  rewrite vec_range_in_bounds by (rewrite ?Hlen; lia).
  reflexivity.
Qed.

(** C1. A calibration-read request of exactly 6 bytes with raw little-endian
    offset [o] and size [s] is served with both rounded down to a multiple of
    16.  When the rounded offset plus the rounded size exceeds 64 the world is
    left as it was (nothing is sent); otherwise exactly one packet is sent:
    the byte 0x11, the four raw offset/size bytes of the request, and the
    window [blob[floor16 o : floor16 o + floor16 s]] of the calibration blob,
    whose length is [floor16 s] and whose [i]-th byte is byte
    [floor16 o + i] of the blob. *)
Theorem calibration_read_window (w : World) (b0 b1 ol oh sl sh : byte) :
  List.length (calibration_data (dev w)) = 64%nat ->
  let o := le16 ol oh in
  let s := le16 sl sh in
  let request := [b0; b1; ol; oh; sl; sh] in
  let blob := calibration_data (dev w) in
  let window := slice blob (floor16 o) (floor16 o + floor16 s) in
  AlignDown o 16 = floor16 o /\
  AlignDown s 16 = floor16 s /\
  (floor16 o + floor16 s > 64 ->
   HandleReadCalibrationDataRequest request w = Some w) /\
  (floor16 o + floor16 s <= 64 ->
   (exists w',
      HandleReadCalibrationDataRequest request w = Some w' /\
      calls w' = calls w ++ [send_func (x11 :: [ol; oh; sl; sh] ++ window)] /\
      dev w' = dev w /\ timing w' = timing w) /\
   Z.of_nat (List.length window) = floor16 s /\
   (forall i : nat, Z.of_nat i < floor16 s ->
      nth_error window i = nth_error blob (Z.to_nat (floor16 o) + i))).
Proof.
  intros Hlen o s request blob window.
  pose proof (le16_range ol oh) as Ho. pose proof (le16_range sl sh) as Hs.
  fold o in Ho. fold s in Hs.
  destruct (floor16_spec o ltac:(lia)) as (_ & Ho16 & _).
  destruct (floor16_spec s ltac:(lia)) as (_ & Hs16 & _).
  split; [apply AlignDown_16; exact Ho|].
  split; [apply AlignDown_16; exact Hs|].
  split.
  - apply calibration_request_rejected.
  - intros Hfit. split; [|split].
    + eexists. split; [apply calibration_request_served; assumption|].
      split; [reflexivity|split; reflexivity].
    + unfold window, blob. rewrite slice_length by (rewrite ?Hlen; lia). lia.
    + intros i Hi. unfold window. apply slice_nth; lia.
Qed.

(** The end-to-end example of the specification: offset 0x10, size 0x10. *)
Lemma calibration_read_window_witness :
  exists w',
    HandleReadCalibrationDataRequest [x02; x00; x10; x00; x10; x00] example_world = Some w' /\
    sent_packets (calls w') =
      [[x11; x10; x00; x10; x00;
        xff; x00; x08; x80; x85; xeb; x11; x3f; x85; xeb; x11; x3f; xff; xff; xff; x65]].
Proof.
  destruct (calibration_read_window example_world x02 x00 x10 x00 x10 x00 eq_refl)
    as (_ & _ & _ & H).
  destruct (H ltac:(vm_compute; discriminate)) as ((w' & Hw & Hc & _) & _).
  exists w'. split; [exact Hw|]. rewrite Hc. reflexivity.
Defined.

(** ** Request dispatcher *)

Lemma RequestID_of_u8_unknown (opcode : byte) :
  opcode <> x01 -> opcode <> x02 -> RequestID_of_u8 opcode = None.
Proof.
  intros H1 H2. destruct opcode; try reflexivity; congruence.
Qed.

Section Dispatcher.

Variable msToCycles : Z -> Z.

Lemma status_request_wrong_size (data : list byte) (w : World) :
  List.length data <> 3%nat -> HandleReadHIDStatusRequest msToCycles data w = Some w.
Proof.
  intros H. unfold HandleReadHIDStatusRequest.
  apply Nat.eqb_neq in H. rewrite H. reflexivity.
Qed.

Lemma calibration_request_wrong_size (data : list byte) (w : World) :
  List.length data <> 6%nat -> HandleReadCalibrationDataRequest data w = Some w.
Proof.
  intros H. unfold HandleReadCalibrationDataRequest.
  apply Nat.eqb_neq in H. rewrite H. reflexivity.
Qed.

Lemma status_request_defined (data : list byte) (w : World) :
  exists w', HandleReadHIDStatusRequest msToCycles data w = Some w'.
Proof.
  destruct (Nat.eq_dec (List.length data) 3) as [E|E].
  - destruct data as [|b0 [|b1 [|b2 [|b3 rest]]]]; try discriminate E.
    eexists. reflexivity.
  - eexists. apply status_request_wrong_size. exact E.
Qed.

Lemma calibration_request_defined (data : list byte) (w : World) :
  List.length (calibration_data (dev w)) = 64%nat ->
  exists w', HandleReadCalibrationDataRequest data w = Some w'.
Proof.
  intros Hlen.
  destruct (Nat.eq_dec (List.length data) 6) as [E|E].
  - destruct data as [|b0 [|b1 [|ol [|oh [|sl [|sh [|b6 rest]]]]]]]; try discriminate E.
    destruct (Z_gt_le_dec (floor16 (le16 ol oh) + floor16 (le16 sl sh)) 64) as [G|L].
    + eexists. apply calibration_request_rejected. exact G.
    + eexists. apply calibration_request_served; assumption.
  - eexists. apply calibration_request_wrong_size. exact E.
Qed.

End Dispatcher.

(** No request touches the calibration blob, and the constructor gives it
    its 64 bytes: the size assumed of it below is an invariant. *)
Lemma construct_calibration_size
      (registered : Z) (p : byte) (pending : bool) (t : CoreTiming.State)
      (s : Settings.Values) (i : Input.Live) (garbage : Z * Z) :
  List.length (calibration_data (dev (construct registered p pending t s i garbage))) = 64%nat.
Proof. reflexivity. Qed.

Lemma Receive_preserves_calibration
      (msToCycles : Z -> Z) (data : list byte) (w w' : World) :
  Receive msToCycles data w = Some w' ->
  calibration_data (dev w') = calibration_data (dev w).
Proof.
  unfold Receive. destruct data as [|b rest]; [discriminate|].
  cbn [vec_at nth_error bind].
  destruct (RequestID_of_u8 b) as [[|]|].
  - unfold HandleReadHIDStatusRequest.
    destruct (negb (Nat.eqb (List.length (b :: rest)) 3)); [intros [= <-]; reflexivity|].
    destruct (vec_at (b :: rest) 1); cbn [bind]; [|discriminate].
    intros [= <-]. reflexivity.
  - unfold HandleReadCalibrationDataRequest.
    destruct (negb (Nat.eqb (List.length (b :: rest)) 6)); [intros [= <-]; reflexivity|].
    destruct (read_u16_le (b :: rest) 2); cbn [bind]; [|discriminate].
    destruct (read_u16_le (b :: rest) 4); cbn [bind]; [|discriminate].
    destruct (AlignDown z 16 + AlignDown z0 16 >? calibration_data_size);
      [intros [= <-]; reflexivity|].
    destruct (vec_range (b :: rest) 2 6); cbn [bind]; [|discriminate].
    destruct (vec_range (calibration_data (dev w)) _ _); cbn [bind]; [|discriminate].
    intros [= <-]. reflexivity.
  - intros [= <-]. reflexivity.
Qed.

(** C6. A request whose first byte is 0x01 but whose length is not 3, or
    whose first byte is 0x02 but whose length is not 6, or whose first byte is
    neither, leaves the whole world as it was: nothing is sent, and the
    broadcast period, the scheduler queue and the calibration blob are
    unchanged.  In particular every 2-byte request starting with 0x01 is
    dropped that way. *)
Theorem malformed_or_unknown_request_dropped
        (msToCycles : Z -> Z) (opcode : byte) (rest : list byte) (w : World) :
  (opcode = x01 /\ List.length (opcode :: rest) <> 3%nat) \/
  (opcode = x02 /\ List.length (opcode :: rest) <> 6%nat) \/
  (opcode <> x01 /\ opcode <> x02) ->
  Receive msToCycles (opcode :: rest) w = Some w /\
  (forall b : byte, Receive msToCycles [x01; b] w = Some w).
Proof.
  intros H. split.
  - unfold Receive. cbn [vec_at nth_error bind].
    destruct H as [[-> H]|[[-> H]|[H1 H2]]].
    + apply status_request_wrong_size. exact H.
    + apply calibration_request_wrong_size. exact H.
    + rewrite RequestID_of_u8_unknown by assumption. reflexivity.
  - intros b. reflexivity.
Qed.

Lemma malformed_or_unknown_request_dropped_witness :
  Receive example_msToCycles [x01; x05] example_world = Some example_world /\
  Receive example_msToCycles [x03; x00; x00] example_world = Some example_world.
Proof.
  split.
  - apply (malformed_or_unknown_request_dropped example_msToCycles x01 [x05] example_world).
    left. split; [reflexivity | discriminate].
  - apply (malformed_or_unknown_request_dropped example_msToCycles x03 [x00; x00] example_world).
    right. right. split; discriminate.
Defined.

(** C9. [Receive] indexes the first byte of its input without a size check.
    The access is inside the vector exactly when the input is not empty; on
    the empty input it is out of bounds, and that is the only way [Receive]
    can go wrong: every non-empty input is processed to completion. *)
Theorem receive_first_byte_access
        (msToCycles : Z -> Z) (data : list byte) (w : World) :
  List.length (calibration_data (dev w)) = 64%nat ->
  (vec_at data 0 = None <-> data = []) /\
  (Receive msToCycles data w = None <-> data = []) /\
  (data <> [] -> exists w', Receive msToCycles data w = Some w').
Proof.
  intros Hlen.
  assert (Hdef : forall b rest, exists w', Receive msToCycles (b :: rest) w = Some w').
  { intros b rest. unfold Receive. cbn [vec_at nth_error bind].
    destruct (RequestID_of_u8 b) as [[|]|].
    - apply status_request_defined.
    - apply calibration_request_defined. exact Hlen.
    - eexists. reflexivity. }
  split; [|split].
  - destruct data; split; intros H; try reflexivity; discriminate H.
  - destruct data as [|b rest]; split; intros H; try reflexivity; try discriminate H.
    destruct (Hdef b rest) as (w' & Hw). congruence.
  - destruct data as [|b rest]; intros H; [congruence|]. apply Hdef.
Qed.

Lemma receive_first_byte_access_witness :
  Receive example_msToCycles [] example_world = None /\
  exists w', Receive example_msToCycles [x01; x05; x00] example_world = Some w'.
Proof.
  destruct (receive_first_byte_access example_msToCycles [] example_world eq_refl)
    as (_ & Hnone & _).
  destruct (receive_first_byte_access example_msToCycles [x01; x05; x00] example_world eq_refl)
    as (_ & _ & Hsome).
  split.
  - apply Hnone. reflexivity.
  - apply Hsome. discriminate.
Defined.

(** ** Single-precision rounding

    The rounding of [SpecFloat] shifts the excess bits of the mantissa out,
    one at a time, remembering a round bit and a sticky bit, and then
    increments the quotient or not.  The lemmas below bound its result,
    which is what the quantisation of the stick axes needs. *)

Lemma iter_pos_iter {A : Type} (f : A -> A) (p : positive) (x : A) :
  SpecFloat.iter_pos f p x = Pos.iter f x p.
Proof.
  revert x. induction p as [p IH|p IH|]; intros x; cbn [SpecFloat.iter_pos Pos.iter].
  - rewrite !IH, !Pos.iter_swap. reflexivity.
  - rewrite !IH. reflexivity.
  - reflexivity.
Qed.

Lemma shr_1_spec (m : Z) (r s : bool) :
  0 <= m ->
  shr_1 (Build_shr_record m r s) = Build_shr_record (m / 2) (Z.odd m) (r || s).
Proof.
  intros Hm. rewrite <- Z.div2_div.
  destruct m as [|[p|p|]|p]; try reflexivity; lia.
Qed.

Lemma shifted_step (X k : Z) (mrs : shr_record) :
  0 <= X -> 0 <= k -> shifted X k mrs -> shifted X (k + 1) (shr_1 mrs).
Proof.
  intros HX Hk [Hm Hrs]. unfold shifted. destruct mrs as [m r s]. cbn [shr_m shr_r shr_s] in *.
  assert (H2k : 0 < 2 ^ k) by (apply Z.pow_pos_nonneg; lia).
  assert (Hm0 : 0 <= m) by (subst m; apply Z.div_pos; lia).
  rewrite shr_1_spec by exact Hm0. cbn [shr_m shr_r shr_s].
  rewrite Z.pow_add_r, Z.pow_1_r by lia.
  split.
  - subst m. rewrite Z.div_div by lia. reflexivity.
  - intros Hmod.
    pose proof (Z.div_mod X (2 ^ k) ltac:(lia)) as Hdm.
    pose proof (Z.mod_pos_bound X (2 ^ k) ltac:(lia)) as Hb.
    rewrite Z.rem_mul_r in Hmod by lia.
    pose proof (Z.mod_pos_bound (X / 2 ^ k) 2 ltac:(lia)) as Hb2.
    assert (Hr0 : X mod 2 ^ k = 0) by nia.
    assert (Hq0 : (X / 2 ^ k) mod 2 = 0) by nia.
    destruct (Hrs Hr0) as [-> ->].
    split; [|reflexivity].
    subst m. rewrite Zodd_mod, Hq0. reflexivity.
Qed.

Lemma shifted_iter (X : Z) (p : positive) :
  0 <= X -> shifted X (Zpos p) (SpecFloat.iter_pos shr_1 p (Build_shr_record X false false)).
Proof.
  intros HX. rewrite iter_pos_iter.
  apply Pos.iter_ind.
  - change 1 with (0 + 1). apply shifted_step; try lia.
    split; cbn [shr_m shr_r shr_s].
    + rewrite Z.pow_0_r, Z.div_1_r. reflexivity.
    + intros _. split; reflexivity.
  - intros q mrs IH. rewrite Pos2Z.inj_succ. apply shifted_step; try lia. exact IH.
Qed.

Lemma shifted_zero (X : Z) : shifted X 0 (Build_shr_record X false false).
Proof.
  split; cbn [shr_m shr_r shr_s].
  - rewrite Z.pow_0_r, Z.div_1_r. reflexivity.
  - intros _. split; reflexivity.
Qed.

Lemma shr_exact_spec (X E n : Z) :
  0 <= X ->
  exists k mrs,
    shr (Build_shr_record X false false) E n = (mrs, E + k) /\
    0 <= k /\ (k = 0 \/ k = n) /\ n <= k /\ shifted X k mrs.
Proof.
  intros HX. destruct n as [|p|p]; cbn [shr].
  - exists 0, (Build_shr_record X false false). rewrite Z.add_0_r.
    split; [reflexivity|]. split; [lia|]. split; [lia|]. split; [lia|].
    apply shifted_zero.
  - exists (Zpos p), (SpecFloat.iter_pos shr_1 p (Build_shr_record X false false)).
    split; [reflexivity|]. split; [lia|]. split; [lia|]. split; [lia|].
    apply shifted_iter. exact HX.
  - exists 0, (Build_shr_record X false false). rewrite Z.add_0_r.
    split; [reflexivity|]. split; [lia|]. split; [lia|]. split; [lia|].
    apply shifted_zero.
Qed.

Lemma digits2_pos_bound (M : positive) (k : Z) :
  0 <= k -> Zpos M < 2 ^ k -> Zpos (digits2_pos M) <= k.
Proof.
  revert k. induction M as [M IH|M IH|]; intros k Hk H; cbn [digits2_pos].
  - assert (k <> 0) by (intros ->; cbn in H; lia).
    rewrite Pos2Z.inj_succ.
    replace k with (Z.succ (k - 1)) in H by lia.
    rewrite Z.pow_succ_r in H by lia.
    specialize (IH (k - 1) ltac:(lia) ltac:(lia)). lia.
  - assert (k <> 0) by (intros ->; cbn in H; lia).
    rewrite Pos2Z.inj_succ.
    replace k with (Z.succ (k - 1)) in H by lia.
    rewrite Z.pow_succ_r in H by lia.
    specialize (IH (k - 1) ltac:(lia) ltac:(lia)). lia.
  - assert (k <> 0) by (intros ->; cbn in H; lia). lia.
Qed.

(** The arithmetic of one rounding stage: [X] lies between [lo] and [hi]
    units of [2^G], it is shifted by [k] bits to the exponent [E + k <= G]
    and possibly incremented when bits were lost. *)
Lemma stage_bounds (X E G k lo hi m1 M1 : Z) :
  0 <= k -> E + k <= G ->
  lo * 2 ^ (G - E) <= X <= hi * 2 ^ (G - E) ->
  m1 = X / 2 ^ k ->
  m1 <= M1 <= m1 + 1 ->
  (X mod 2 ^ k = 0 -> M1 = m1) ->
  lo * 2 ^ (G - (E + k)) <= M1 <= hi * 2 ^ (G - (E + k)).
Proof.
  intros Hk HE HX Hm1 HM1 Hex.
  replace (G - E) with ((G - (E + k)) + k) in HX by lia.
  rewrite Z.pow_add_r in HX by lia.
  set (A := 2 ^ (G - (E + k))) in *.
  set (K := 2 ^ k) in *.
  assert (HA : 0 < A) by (apply Z.pow_pos_nonneg; lia).
  assert (HK : 0 < K) by (apply Z.pow_pos_nonneg; lia).
  pose proof (Z.div_mod X K ltac:(lia)) as Hdm.
  pose proof (Z.mod_pos_bound X K HK) as Hr.
  rewrite <- Hm1 in Hdm.
  split.
  - assert (lo * A <= m1); [|lia].
    subst m1. apply Z.div_le_lower_bound; lia.
  - destruct (Z.eq_dec (X mod K) 0) as [E0|N0].
    + rewrite (Hex E0). subst m1. apply Z.div_le_upper_bound; lia.
    + assert (m1 < hi * A); [|lia].
      apply Z.mul_lt_mono_pos_l with (p := K); [exact HK|]. lia.
Qed.

Lemma fexp_le (d G : Z) : d - 24 <= G -> -149 <= G -> fexp 24 128 d <= G.
Proof. unfold fexp, emin. lia. Qed.

Lemma Zdigits2_units (X E G hi : Z) :
  0 <= X <= hi * 2 ^ (G - E) -> hi < 2 ^ 24 -> E <= G ->
  Zdigits2 X + E - 24 <= G.
Proof.
  intros HX Hhi HE. destruct X as [|M|M]; cbn [Zdigits2]; try lia.
  assert (Zpos (digits2_pos M) <= 24 + (G - E)); [|lia].
  apply digits2_pos_bound; [lia|].
  rewrite Z.pow_add_r by lia.
  assert (0 < 2 ^ (G - E)) by (apply Z.pow_pos_nonneg; lia).
  nia.
Qed.

Lemma shr_fexp_stage (X E G lo hi : Z) :
  0 <= X -> E <= G -> -149 <= G -> hi < 2 ^ 24 ->
  lo * 2 ^ (G - E) <= X <= hi * 2 ^ (G - E) ->
  exists mrs E1,
    shr_fexp 24 128 X E loc_Exact = (mrs, E1) /\ E1 <= G /\ 0 <= shr_m mrs /\
    forall M1 : Z,
      shr_m mrs <= M1 <= shr_m mrs + 1 ->
      (shr_r mrs = false -> shr_s mrs = false -> M1 = shr_m mrs) ->
      lo * 2 ^ (G - E1) <= M1 <= hi * 2 ^ (G - E1).
Proof.
  intros HX HE HG Hhi Hb. unfold shr_fexp. cbn [shr_record_of_loc].
  pose proof (Zdigits2_units X E G hi ltac:(lia) Hhi HE) as Hd.
  pose proof (fexp_le (Zdigits2 X + E) G Hd HG) as Hf.
  destruct (shr_exact_spec X E (fexp 24 128 (Zdigits2 X + E) - E) HX)
    as (k & mrs & Hshr & Hk & Hkn & _ & Hm & Hrs).
  exists mrs, (E + k). split; [exact Hshr|].
  assert (HEk : E + k <= G) by (destruct Hkn; lia).
  split; [exact HEk|]. split.
  - rewrite Hm. apply Z.div_pos; [lia|]. apply Z.pow_pos_nonneg; lia.
  - intros M1 HM1 Hex.
    apply (stage_bounds X E G k lo hi (shr_m mrs) M1); try assumption.
    intros H0. destruct (Hrs H0) as [Hr0 Hs0]. apply Hex; assumption.
Qed.

Lemma round_nearest_even_bounds (mrs : shr_record) :
  let M1 := round_nearest_even (shr_m mrs) (loc_of_shr_record mrs) in
  shr_m mrs <= M1 <= shr_m mrs + 1 /\
  (shr_r mrs = false -> shr_s mrs = false -> M1 = shr_m mrs).
Proof.
  destruct mrs as [m [|] [|]]; cbn [shr_m shr_r shr_s loc_of_shr_record round_nearest_even];
    try destruct (Z.even m); split; try lia; try discriminate; reflexivity.
Qed.

(** Correct rounding never leaves an interval whose end points are
    representable at the exponent [G]: with [lo] and [hi] below [2^24] units
    of [2^G] and the exact value [M * 2^E] between them, so is the result. *)
Lemma binary_round_aux_bounds (s : bool) (M : positive) (E G lo hi : Z) :
  E <= G -> -149 <= G <= 104 -> 0 <= lo -> hi < 2 ^ 24 ->
  lo * 2 ^ (G - E) <= Zpos M <= hi * 2 ^ (G - E) ->
  match binary_round_aux 24 128 s (Zpos M) E loc_Exact with
  | S754_zero s' => s' = s /\ lo = 0
  | S754_finite s' M' E' =>
      s' = s /\ E' <= G /\ lo * 2 ^ (G - E') <= Zpos M' <= hi * 2 ^ (G - E')
  | _ => False
  end.
Proof.
  intros HE HG Hlo Hhi Hb. unfold binary_round_aux.
  destruct (shr_fexp_stage (Zpos M) E G lo hi ltac:(lia) HE ltac:(lia) Hhi Hb)
    as (mrs1 & E1 & -> & HE1 & Hm1 & Hst1).
  destruct (round_nearest_even_bounds mrs1) as [Hr1 Hr1'].
  specialize (Hst1 _ Hr1 Hr1').
  set (M1 := round_nearest_even (shr_m mrs1) (loc_of_shr_record mrs1)) in *.
  destruct (shr_fexp_stage M1 E1 G lo hi ltac:(lia) HE1 ltac:(lia) Hhi Hst1)
    as (mrs2 & E2 & -> & HE2 & Hm2 & Hst2).
  specialize (Hst2 (shr_m mrs2) ltac:(lia) ltac:(reflexivity)).
  assert (HA : 0 < 2 ^ (G - E2)) by (apply Z.pow_pos_nonneg; lia).
  destruct (shr_m mrs2) as [|M2|M2].
  - split; [reflexivity|]. nia.
  - replace (E2 <=? 128 - 24) with true by (symmetry; apply Z.leb_le; lia).
    split; [reflexivity|]. split; [exact HE2|exact Hst2].
  - lia.
Qed.

Lemma Pos_iter_xO (m d : positive) : Zpos (Pos.iter xO m d) = Zpos m * 2 ^ Zpos d.
Proof.
  induction d as [|d IH] using Pos.peano_ind.
  - cbn [Pos.iter]. lia.
  - rewrite Pos.iter_succ, Pos2Z.inj_succ, Z.pow_succ_r by lia.
    rewrite Pos2Z.inj_xO, IH. lia.
Qed.

Lemma shl_align_spec (mx : positive) (ex ex' : Z) :
  exists m' e',
    shl_align mx ex ex' = (m', e') /\ e' = Z.min ex ex' /\
    Zpos m' = Zpos mx * 2 ^ (ex - e').
Proof.
  unfold shl_align. destruct (ex' - ex) as [|d|d] eqn:Hd.
  - exists mx, ex. rewrite Z.sub_diag. split; [reflexivity|]. lia.
  - exists mx, ex. rewrite Z.sub_diag. split; [reflexivity|]. lia.
  - exists (Pos.iter xO mx d), ex'. split; [reflexivity|].
    rewrite Pos_iter_xO. replace (ex - ex') with (Zpos d) by lia. lia.
Qed.

(** ** Quantisation of a stick axis *)

Lemma of_int_radius : Float32.of_int C_STICK_RADIUS = S754_finite false 16769024 (-13).
Proof. reflexivity. Qed.

Lemma of_int_center : Float32.of_int C_STICK_CENTER = S754_finite false 8388608 (-12).
Proof. reflexivity. Qed.

(** The product [2047.0f * a] of an axis in [-1, 1] is zero or a float of
    magnitude at most 2047 whose exponent is at most -13. *)
Lemma radius_product_bounds (a : Float32.float32) :
  Float32.in_unit_range a = true ->
  match Float32.mul (Float32.of_int C_STICK_RADIUS) a with
  | S754_zero _ => True
  | S754_finite _ M E => E <= -13 /\ Zpos M <= 16769024 * 2 ^ (-13 - E)
  | _ => False
  end.
Proof.
  intros Ha. rewrite of_int_radius. unfold Float32.mul, Float32.prec, Float32.emax.
  destruct a as [s|s| |s m e]; cbn [Float32.in_unit_range] in Ha; try discriminate Ha.
  - exact I.
  - apply andb_prop in Ha. destruct Ha as [He Hm].
    apply Z.leb_le in He. apply Z.leb_le in Hm.
    cbn [SFmul].
    assert (H2 : 0 < 2 ^ (- e)) by (apply Z.pow_pos_nonneg; lia).
    pose proof (binary_round_aux_bounds (xorb false s) (16769024 * m) (-13 + e) (-13)
                                        0 16769024) as H.
    replace (-13 - (-13 + e)) with (- e) in H by lia.
    specialize (H ltac:(lia) ltac:(lia) ltac:(lia) ltac:(reflexivity)).
    specialize (H ltac:(rewrite Pos2Z.inj_mul; nia)).
    destruct (binary_round_aux 24 128 (xorb false s) (Zpos (16769024 * m)) (-13 + e) loc_Exact)
      as [s'|s'| |s' M' E']; try exact I; try contradiction.
    destruct H as (_ & HE & _ & HM). split; assumption.
Qed.

(** The sum [2048.0f + p] with such a product is a positive float between 1
    and 4095 whose exponent is at most -12. *)
Lemma center_sum_bounds (p : Float32.float32) :
  match p with
  | S754_zero _ => True
  | S754_finite _ M E => E <= -13 /\ Zpos M <= 16769024 * 2 ^ (-13 - E)
  | _ => False
  end ->
  exists M' E',
    Float32.add (Float32.of_int C_STICK_CENTER) p = S754_finite false M' E' /\
    E' <= -12 /\
    4096 * 2 ^ (-12 - E') <= Zpos M' <= 16773120 * 2 ^ (-12 - E').
Proof.
  intros Hp. rewrite of_int_center. unfold Float32.add, Float32.prec, Float32.emax.
  destruct p as [sp|sp| |sp Mp Ep]; try contradiction.
  - exists 8388608%positive, (-12). cbn [SFadd]. split; [reflexivity|].
    split; [lia|]. cbn. lia.
  - destruct Hp as [HE HM]. cbn [SFadd].
    rewrite Z.min_r by lia.
    destruct (shl_align_spec 8388608 (-12) Ep) as (m1 & e1 & -> & He1 & Hm1).
    destruct (shl_align_spec Mp Ep Ep) as (m2 & e2 & -> & He2 & Hm2).
    rewrite Z.min_r in He1 by lia. rewrite Z.min_id in He2. subst e1 e2.
    rewrite Z.sub_diag, Z.pow_0_r, Z.mul_1_r in Hm2.
    cbn [fst cond_Zopp]. rewrite Hm1, Hm2.
    replace (-12 - Ep) with (1 + (-13 - Ep)) by lia.
    rewrite Z.pow_add_r, Z.pow_1_r by lia.
    set (u := 2 ^ (-13 - Ep)) in *.
    assert (Hu : 0 < u) by (apply Z.pow_pos_nonneg; lia).
    assert (Hz : 8192 * u <= 8388608 * (2 * u) + cond_Zopp sp (Zpos Mp) <= 33546240 * u)
      by (destruct sp; cbn [cond_Zopp]; lia).
    destruct (8388608 * (2 * u) + cond_Zopp sp (Zpos Mp)) as [|zp|zp]; try lia.
    cbn [binary_normalize]. unfold binary_round.
    destruct (shl_align_spec zp Ep (fexp 24 128 (Zpos (digits2_pos zp) + Ep)))
      as (mz & ez & -> & Hez & Hmz).
    assert (Hez' : ez <= Ep) by lia.
    pose proof (binary_round_aux_bounds false mz ez (-12) 4096 16773120) as H.
    specialize (H ltac:(lia) ltac:(lia) ltac:(lia) ltac:(reflexivity)).
    assert (Hb : 4096 * 2 ^ (-12 - ez) <= Zpos mz <= 16773120 * 2 ^ (-12 - ez)).
    { rewrite Hmz.
      replace (-12 - ez) with (1 + (-13 - Ep) + (Ep - ez)) by lia.
      rewrite !Z.pow_add_r, Z.pow_1_r by lia. fold u.
      assert (HW : 0 < 2 ^ (Ep - ez)) by (apply Z.pow_pos_nonneg; lia).
      nia. }
    specialize (H Hb).
    destruct (binary_round_aux 24 128 false (Zpos mz) ez loc_Exact)
      as [s'|s'| |s' M' E']; try contradiction.
    + destruct H as [_ H]. discriminate H.
    + destruct H as (-> & HE' & HM'). exists M', E'.
      split; [reflexivity|]. split; assumption.
Qed.

Lemma trunc_mag_units (M : positive) (E : Z) :
  E <= -12 ->
  4096 * 2 ^ (-12 - E) <= Zpos M <= 16773120 * 2 ^ (-12 - E) ->
  1 <= Float32.trunc_mag M E <= 4095.
Proof.
  intros HE HM. unfold Float32.trunc_mag.
  replace (0 <=? E) with false by (symmetry; apply Z.leb_gt; lia).
  rewrite Z.shiftr_div_pow2 by lia.
  replace (- E) with (12 + (-12 - E)) by lia.
  rewrite Z.pow_add_r by lia. change (2 ^ 12) with 4096.
  set (v := 2 ^ (-12 - E)) in *.
  assert (Hv : 0 < v) by (apply Z.pow_pos_nonneg; lia).
  split.
  - apply Z.div_le_lower_bound; lia.
  - apply Z.div_le_upper_bound; lia.
Qed.

(** Every axis value in [-1, 1] is quantised without undefined behaviour,
    to a value that fits the 12-bit field and is never zero. *)
Lemma quantize_axis_defined (a : Float32.float32) :
  Float32.in_unit_range a = true ->
  exists v, quantize_axis a = Some v /\ 1 <= v <= 4095.
Proof.
  intros Ha. unfold quantize_axis, scale_axis.
  destruct (center_sum_bounds _ (radius_product_bounds a Ha)) as (M & E & -> & HE & HM).
  pose proof (trunc_mag_units M E HE HM) as Ht.
  exists (Float32.trunc_mag M E). cbn [Float32.to_u32].
  replace (Float32.trunc_mag M E <? 2 ^ 32) with true
    by (symmetry; apply Z.ltb_lt; change (2 ^ 32) with 4294967296; lia).
  split; [reflexivity|exact Ht].
Qed.

(** ** Conversion to an integer *)

Lemma magnitude_floor (m : positive) (e : Z) :
  Qfloor (Float32.magnitude m e) = Float32.trunc_mag m e.
Proof.
  unfold Float32.magnitude, Float32.trunc_mag.
  destruct (0 <=? e) eqn:He.
  - apply Z.leb_le in He. rewrite Qfloor_Z, Z.shiftl_mul_pow2 by lia. reflexivity.
  - apply Z.leb_gt in He. rewrite Z.shiftr_div_pow2 by lia.
    cbn [Qfloor]. rewrite Z2Pos.id by (apply Z.pow_pos_nonneg; lia). reflexivity.
Qed.

Lemma magnitude_pos (m : positive) (e : Z) : (0 < Float32.magnitude m e)%Q.
Proof.
  unfold Float32.magnitude, Qlt. destruct (0 <=? e) eqn:He; cbn [Qnum Qden inject_Z].
  - apply Z.leb_le in He.
    assert (0 < 2 ^ e) by (apply Z.pow_pos_nonneg; lia). lia.
  - lia.
Qed.

(** [static_cast<u32>] yields the truncation toward zero of the exact value
    of its argument, whenever it is defined. *)
Lemma to_u32_truncates (f : Float32.float32) (v : Z) :
  Float32.to_u32 f = Some v ->
  v = Float32.Qtrunc (Float32.to_Q f) /\ 0 <= v < 2 ^ 32.
Proof.
  destruct f as [s|s| |s m e]; cbn [Float32.to_u32 Float32.to_Q]; try discriminate.
  - intros [= <-]. split; [reflexivity|lia].
  - pose proof (magnitude_floor m e) as Hfl.
    pose proof (magnitude_pos m e) as Hpos.
    assert (Hnn : 0 <= Float32.trunc_mag m e).
    { rewrite <- Hfl. change 0 with (Qfloor 0). apply Qfloor_resp_le.
      apply Qlt_le_weak. exact Hpos. }
    unfold Float32.Qtrunc. destruct s.
    + destruct (Float32.trunc_mag m e =? 0) eqn:Ht; [|discriminate].
      apply Z.eqb_eq in Ht. intros [= <-].
      replace (Qle_bool 0 (- Float32.magnitude m e)) with false.
      * unfold Qceiling.
        rewrite (Qfloor_comp _ _ (Qopp_involutive (Float32.magnitude m e))).
        rewrite Hfl, Ht. split; [reflexivity|lia].
      * symmetry. apply not_true_is_false. intros Hle.
        apply Qle_bool_iff in Hle.
        apply (Qlt_irrefl 0). apply Qlt_le_trans with (1 := Hpos).
        apply Qopp_le_compat in Hle. rewrite Qopp_involutive in Hle. exact Hle.
    + destruct (Float32.trunc_mag m e <? 2 ^ 32) eqn:Ht; [|discriminate].
      apply Z.ltb_lt in Ht. intros [= <-].
      replace (Qle_bool 0 (Float32.magnitude m e)) with true.
      * rewrite Hfl. split; [reflexivity|lia].
      * symmetry. apply Qle_bool_iff. apply Qlt_le_weak. exact Hpos.
Qed.

(** ** Bit fields *)

Lemma BitField_Mask_testbit (position bits n : Z) :
  0 <= bits -> 0 <= n ->
  Z.testbit (BitField_Mask position bits) n = (position <=? n) && (n <? position + bits).
Proof.
  intros Hb Hn. unfold BitField_Mask.
  rewrite Z.shiftl_spec, Z.testbit_ones by lia.
  destruct (Z.leb_spec 0 (n - position)), (Z.leb_spec position n); try lia;
    destruct (Z.ltb_spec (n - position) bits), (Z.ltb_spec n (position + bits));
    try lia; reflexivity.
Qed.

Lemma BitField_Assign_inside (position bits storage value n : Z) :
  0 <= bits -> 0 <= position -> position <= n < position + bits ->
  Z.testbit (BitField_Assign position bits storage value) n = Z.testbit value (n - position).
Proof.
  intros Hb Hp Hn. unfold BitField_Assign.
  rewrite Z.lor_spec, Z.ldiff_spec, Z.land_spec, BitField_Mask_testbit by lia.
  rewrite Z.shiftl_spec by lia.
  replace (position <=? n) with true by (symmetry; apply Z.leb_le; lia).
  replace (n <? position + bits) with true by (symmetry; apply Z.ltb_lt; lia).
  cbn [andb negb]. rewrite andb_false_r, andb_true_r. reflexivity.
Qed.

Lemma BitField_Assign_outside (position bits storage value n : Z) :
  0 <= bits -> 0 <= n -> n < position \/ position + bits <= n ->
  Z.testbit (BitField_Assign position bits storage value) n = Z.testbit storage n.
Proof.
  intros Hb Hn Hout. unfold BitField_Assign.
  rewrite Z.lor_spec, Z.ldiff_spec, Z.land_spec, BitField_Mask_testbit by lia.
  replace ((position <=? n) && (n <? position + bits)) with false.
  - cbn [negb]. rewrite andb_false_r, andb_true_r, orb_false_r. reflexivity.
  - symmetry. apply andb_false_iff.
    destruct Hout; [left; apply Z.leb_gt|right; apply Z.ltb_ge]; lia.
Qed.

Lemma testbit_above (a k n : Z) : 0 <= a < 2 ^ k -> 0 <= k <= n -> Z.testbit a n = false.
Proof.
  intros Ha Hk. rewrite <- (Z.mod_small a (2 ^ k)) by exact Ha.
  apply Z.mod_pow2_bits_high. exact Hk.
Qed.

(** A value below [2^k] and a value shifted left by [k] occupy different
    bits: their union is their sum. *)
Lemma lor_shiftl_add (a b k : Z) :
  0 <= a < 2 ^ k -> 0 <= k -> Z.lor a (Z.shiftl b k) = a + b * 2 ^ k.
Proof.
  intros Ha Hk.
  assert (Hdisj : Z.land a (Z.shiftl b k) = 0).
  { apply Z.bits_inj'. intros n Hn.
    rewrite Z.land_spec, Z.bits_0.
    destruct (Z.lt_ge_cases n k) as [Hlt|Hge].
    - rewrite Z.shiftl_spec_low by exact Hlt. apply andb_false_r.
    - rewrite (testbit_above a k n) by lia. reflexivity. }
  rewrite <- Z.lxor_lor, <- Z.add_nocarry_lxor by exact Hdisj.
  rewrite Z.shiftl_mul_pow2 by exact Hk. reflexivity.
Qed.

Lemma testbit_mod_pow2 (a k n : Z) :
  0 <= k -> Z.testbit (a mod 2 ^ k) n = (n <? k) && Z.testbit a n.
Proof.
  intros Hk. destruct (Z.ltb_spec n k) as [Hlt|Hge].
  - destruct (Z.lt_ge_cases n 0) as [Hneg|Hnn].
    + rewrite !Z.testbit_neg_r by exact Hneg. reflexivity.
    + rewrite Z.mod_pow2_bits_low by lia. reflexivity.
  - rewrite Z.mod_pow2_bits_high by lia. reflexivity.
Qed.

(** The [c_stick] word after the three assignments: whatever the storage
    held before, it is the opcode in bits 0-7, the X field in bits 8-19 and
    the Y field in bits 20-31. *)
Lemma c_stick_word (g fx fy : Z) :
  BitField_Assign 20 12
    (BitField_Assign 8 12 (BitField_Assign 0 8 (wrap_u32 g) ResponseID.ReadHIDStatus) fx) fy
  = 0x10 + 2 ^ 8 * (fx mod 2 ^ 12) + 2 ^ 20 * (fy mod 2 ^ 12).
Proof.
  pose proof (Z.mod_pos_bound fx (2 ^ 12) ltac:(lia)) as Hx.
  pose proof (Z.mod_pos_bound fy (2 ^ 12) ltac:(lia)) as Hy.
  transitivity (Z.lor (0x10 + (fx mod 2 ^ 12) * 2 ^ 8) (Z.shiftl (fy mod 2 ^ 12) 20)).
  2:{ rewrite lor_shiftl_add; [lia| |lia].
      change (2 ^ 20) with (2 ^ 12 * 2 ^ 8). change (2 ^ 8) with 256. nia. }
  rewrite <- (lor_shiftl_add 0x10 (fx mod 2 ^ 12) 8) by (change (2 ^ 8) with 256; lia).
  apply Z.bits_inj'. intros n Hn.
  rewrite !Z.lor_spec, !Z.shiftl_spec by exact Hn.
  rewrite !testbit_mod_pow2 by lia.
  destruct (Z.lt_ge_cases n 8) as [H8|H8]; [|destruct (Z.lt_ge_cases n 20) as [H20|H20]].
  - rewrite BitField_Assign_outside, BitField_Assign_outside, BitField_Assign_inside by lia.
    rewrite (Z.testbit_neg_r fx), (Z.testbit_neg_r fy) by lia.
    rewrite !andb_false_r, !orb_false_r, Z.sub_0_r. reflexivity.
  - rewrite BitField_Assign_outside, BitField_Assign_inside by lia.
    rewrite (testbit_above 0x10 8 n) by (change (2 ^ 8) with 256; lia).
    rewrite (Z.testbit_neg_r fy) by lia.
    replace (n - 8 <? 12) with true by (symmetry; apply Z.ltb_lt; lia).
    rewrite andb_false_r, orb_false_r. reflexivity.
  - rewrite (testbit_above 0x10 8 n) by (change (2 ^ 8) with 256; lia).
    replace (n - 8 <? 12) with false by (symmetry; apply Z.ltb_ge; lia).
    cbn [andb orb].
    destruct (Z.lt_ge_cases n 32) as [H32|H32].
    + rewrite BitField_Assign_inside by lia.
      replace (n - 20 <? 12) with true by (symmetry; apply Z.ltb_lt; lia).
      reflexivity.
    + rewrite !BitField_Assign_outside by lia.
      replace (n - 20 <? 12) with false by (symmetry; apply Z.ltb_ge; lia).
      unfold wrap_u32. apply Z.mod_pow2_bits_high. lia.
Qed.

(** The [buttons] byte after the four assignments, whatever the storage held
    before: battery 0x1F in bits 0-4, the two "not pressed" flags in bits 5
    and 6, and the R flag in bit 7. *)
Lemma buttons_byte (g : Z) (zl_pressed zr_pressed : bool) :
  BitField_Assign 7 1
    (BitField_Assign 6 1
       (BitField_Assign 5 1 (BitField_Assign 0 5 (g mod 2 ^ 8) 0x1F)
                        (Z.b2z (negb zl_pressed)))
       (Z.b2z (negb zr_pressed))) 1
  = 0x1F + 2 ^ 5 * Z.b2z (negb zl_pressed) + 2 ^ 6 * Z.b2z (negb zr_pressed) + 2 ^ 7.
Proof.
  pose proof (Z.mod_pos_bound g (2 ^ 8) ltac:(lia)) as Hg.
  set (x := g mod 2 ^ 8) in *.
  assert (Hall : forallb
                   (fun x =>
                      forallb
                        (fun '(l, r) =>
                           BitField_Assign 7 1
                             (BitField_Assign 6 1
                                (BitField_Assign 5 1 (BitField_Assign 0 5 x 0x1F) (Z.b2z (negb l)))
                                (Z.b2z (negb r))) 1
                           =? 0x1F + 2 ^ 5 * Z.b2z (negb l) + 2 ^ 6 * Z.b2z (negb r) + 2 ^ 7)
                        [(false, false); (false, true); (true, false); (true, true)])
                   (map Z.of_nat (seq 0 256)) = true) by (vm_compute; reflexivity).
  rewrite forallb_forall in Hall.
  assert (Hin : In x (map Z.of_nat (seq 0 256))).
  { replace x with (Z.of_nat (Z.to_nat x)) by lia.
    apply in_map, in_seq. change (2 ^ 8) with 256 in Hg. lia. }
  specialize (Hall x Hin). rewrite forallb_forall in Hall.
  specialize (Hall (zl_pressed, zr_pressed)).
  apply Z.eqb_eq. apply Hall.
  destruct zl_pressed, zr_pressed; cbn; tauto.
Qed.

Lemma u32_bytes_le_decode (w : Z) :
  0 <= w < 2 ^ 32 ->
  exists b0 b1 b2 b3,
    u32_bytes_le w = [b0; b1; b2; b3] /\ le_bytes_u32 b0 b1 b2 b3 = w.
Proof.
  intros Hw. unfold u32_bytes_le. do 4 eexists. split; [reflexivity|].
  unfold le_bytes_u32. rewrite !u8_to_Z_to_u8, !Z.shiftr_div_pow2 by lia.
  change (2 ^ 8) with 256. change (2 ^ 16) with 65536. change (2 ^ 24) with 16777216.
  change (2 ^ 32) with 4294967296 in Hw.
  pose proof (Z.div_mod w 256 ltac:(lia)).
  pose proof (Z.mod_pos_bound w 256 ltac:(lia)).
  pose proof (Z.div_mod (w / 256) 256 ltac:(lia)).
  pose proof (Z.mod_pos_bound (w / 256) 256 ltac:(lia)).
  pose proof (Z.div_mod (w / 256 / 256) 256 ltac:(lia)).
  pose proof (Z.mod_pos_bound (w / 256 / 256) 256 ltac:(lia)).
  replace (w / 65536) with (w / 256 / 256) by (rewrite Z.div_div by lia; reflexivity).
  replace (w / 16777216) with (w / 256 / 256 / 256)
    by (rewrite !Z.div_div by lia; reflexivity).
  rewrite (Z.mod_small (w / 256 / 256 / 256)); [lia|].
  split; [repeat apply Z.div_pos; lia|].
  repeat (apply Z.div_lt_upper_bound; [lia|]). lia.
Qed.

(** The layout of the encoded status packet. *)
Lemma encode_status_layout (garbage : Z * Z) (fx fy : Z) (zl_pressed zr_pressed : bool) :
  exists b0 b1 b2 b3 st,
    encode_status garbage fx fy zl_pressed zr_pressed = [b0; b1; b2; b3; st; x00] /\
    le_bytes_u32 b0 b1 b2 b3 = 0x10 + 2 ^ 8 * (fx mod 2 ^ 12) + 2 ^ 20 * (fy mod 2 ^ 12) /\
    u8_to_Z st =
      0x1F + 2 ^ 5 * Z.b2z (negb zl_pressed) + 2 ^ 6 * Z.b2z (negb zr_pressed) + 2 ^ 7.
Proof.
  unfold encode_status. cbv zeta. rewrite c_stick_word, buttons_byte.
  pose proof (Z.mod_pos_bound fx (2 ^ 12) ltac:(lia)) as Hx.
  pose proof (Z.mod_pos_bound fy (2 ^ 12) ltac:(lia)) as Hy.
  destruct (u32_bytes_le_decode (0x10 + 2 ^ 8 * (fx mod 2 ^ 12) + 2 ^ 20 * (fy mod 2 ^ 12)))
    as (b0 & b1 & b2 & b3 & Hbytes & Hword).
  { change (2 ^ 32) with (2 ^ 20 * 2 ^ 12). change (2 ^ 20) with (2 ^ 8 * 2 ^ 12).
    change (2 ^ 8) with 256. change (2 ^ 12) with 4096 in *. lia. }
  exists b0, b1, b2, b3. eexists. rewrite Hbytes. split; [reflexivity|].
  split; [exact Hword|].
  rewrite u8_to_Z_to_u8. apply Z.mod_small.
  destruct zl_pressed, zr_pressed; cbn; lia.
Qed.

(** ** The broadcast tick *)

Lemma after_reload_frame (w : World) :
  timing (after_reload w) = timing w /\ settings (after_reload w) = settings w /\
  live (after_reload w) = live w /\ stack_garbage (after_reload w) = stack_garbage w /\
  hid_period (dev (after_reload w)) = hid_period (dev w) /\
  send_callback (dev (after_reload w)) = send_callback (dev w) /\
  calibration_data (dev (after_reload w)) = calibration_data (dev w) /\
  is_device_reload_pending (dev (after_reload w)) = false.
Proof.
  unfold after_reload. destruct (is_device_reload_pending (dev w)) eqn:E.
  - repeat split; reflexivity.
  - repeat split; try reflexivity. exact E.
Qed.

Lemma SendHIDStatus_unfold (msToCycles : Z -> Z) (cycles_late : Z) (w : World) :
  SendHIDStatus msToCycles cycles_late w =
  (fx <- quantize_axis (fst (sampled_axes w)) ;;
   fy <- quantize_axis (snd (sampled_axes w)) ;;
   Some (tick_result msToCycles cycles_late w fx fy)).
Proof.
  unfold SendHIDStatus, sampled_axes, tick_result, tick_calls, sampled_zl, sampled_zr,
    period_cycles.
  fold (after_reload w).
  destruct (after_reload_frame w) as (Ht & Hs & Hl & Hg & Hp & Hc & _ & _).
  destruct (after_reload w) as [d1 t1 s1 l1 g1 c1].
  cbn [call set_timing dev live timing settings stack_garbage calls] in *.
  subst t1 s1 l1 g1. rewrite Hp, Hc.
  destruct (Input.analog_status (live w) (c_stick d1)) as [x y].
  cbn [fst snd].
  destruct (quantize_axis x) as [fx|]; [|reflexivity]. cbn [bind].
  destruct (quantize_axis y) as [fy|]; [|reflexivity]. cbn [bind].
  unfold set_timing, call.
  cbn [dev live timing settings stack_garbage calls].
  rewrite <- !app_assoc. reflexivity.
Qed.

(** A tick whose sampled axes are within [-1, 1] runs to completion. *)
Lemma SendHIDStatus_defined (msToCycles : Z -> Z) (cycles_late : Z) (w : World) :
  axes_in_range w = true ->
  exists fx fy,
    quantize_axis (fst (sampled_axes w)) = Some fx /\ 1 <= fx <= 4095 /\
    quantize_axis (snd (sampled_axes w)) = Some fy /\ 1 <= fy <= 4095 /\
    SendHIDStatus msToCycles cycles_late w = Some (tick_result msToCycles cycles_late w fx fy).
Proof.
  intros Hr. unfold axes_in_range in Hr. apply andb_prop in Hr. destruct Hr as [Hx Hy].
  destruct (quantize_axis_defined _ Hx) as (fx & Hfx & Hbx).
  destruct (quantize_axis_defined _ Hy) as (fy & Hfy & Hby).
  exists fx, fy. rewrite SendHIDStatus_unfold, Hfx, Hfy.
  repeat split; try assumption; lia.
Qed.

(** Conversely, a tick that completes has quantised both axes. *)
Lemma SendHIDStatus_inv (msToCycles : Z -> Z) (cycles_late : Z) (w w' : World) :
  SendHIDStatus msToCycles cycles_late w = Some w' ->
  exists fx fy,
    quantize_axis (fst (sampled_axes w)) = Some fx /\
    quantize_axis (snd (sampled_axes w)) = Some fy /\
    w' = tick_result msToCycles cycles_late w fx fy.
Proof.
  rewrite SendHIDStatus_unfold.
  destruct (quantize_axis (fst (sampled_axes w))) as [fx|]; [|discriminate].
  destruct (quantize_axis (snd (sampled_axes w))) as [fy|]; [|discriminate].
  cbn [bind]. intros [= <-]. exists fx, fy. repeat split.
Qed.

Lemma wrap_s64_small (z : Z) : - 2 ^ 63 <= z < 2 ^ 63 -> wrap_s64 z = z.
Proof.
  intros Hz. unfold wrap_s64.
  change (2 ^ 64) with (2 * 2 ^ 63). rewrite Z.mod_small; lia.
Qed.

Lemma In_AddEventToQueue (ne : CoreTiming.Event) (q : list CoreTiming.Event) :
  In ne (CoreTiming.AddEventToQueue ne q).
Proof.
  induction q as [|ev rest IH]; cbn [CoreTiming.AddEventToQueue].
  - left. reflexivity.
  - destruct (CoreTiming.time ne <? CoreTiming.time ev).
    + left. reflexivity.
    + right. exact IH.
Qed.

(** ** The scheduler queue *)

Section Queue.

Variables (event_type ud : Z).

Lemma pending_UnscheduleEvent (s : CoreTiming.State) :
  CoreTiming.pending event_type ud (CoreTiming.UnscheduleEvent event_type ud s) = [].
Proof.
  unfold CoreTiming.pending, CoreTiming.UnscheduleEvent. cbn [CoreTiming.event_queue].
  induction (CoreTiming.event_queue s) as [|ev q IH]; [reflexivity|].
  cbn [filter]. destruct (CoreTiming.matches event_type ud ev) eqn:E; cbn [negb filter].
  - exact IH.
  - rewrite E. exact IH.
Qed.

Lemma filter_idem {A : Type} (f : A -> bool) (l : list A) :
  filter f (filter f l) = filter f l.
Proof.
  induction l as [|a l IH]; [reflexivity|].
  cbn [filter]. destruct (f a) eqn:E; cbn [filter]; rewrite ?E, IH; reflexivity.
Qed.

Lemma others_UnscheduleEvent (s : CoreTiming.State) :
  CoreTiming.others event_type ud (CoreTiming.UnscheduleEvent event_type ud s) =
  CoreTiming.others event_type ud s.
Proof.
  unfold CoreTiming.others, CoreTiming.UnscheduleEvent. cbn [CoreTiming.event_queue].
  apply filter_idem.
Qed.

Lemma UnscheduleEvent_idempotent (s : CoreTiming.State) :
  CoreTiming.UnscheduleEvent event_type ud (CoreTiming.UnscheduleEvent event_type ud s) =
  CoreTiming.UnscheduleEvent event_type ud s.
Proof.
  unfold CoreTiming.UnscheduleEvent at 1 3.
  cbn [CoreTiming.event_queue CoreTiming.global_timer CoreTiming.UnscheduleEvent].
  rewrite filter_idem. reflexivity.
Qed.

Lemma UnscheduleEvent_nothing_pending (s : CoreTiming.State) :
  CoreTiming.pending event_type ud s = [] ->
  CoreTiming.UnscheduleEvent event_type ud s = s.
Proof.
  unfold CoreTiming.pending, CoreTiming.UnscheduleEvent.
  destruct s as [now q]. cbn [CoreTiming.event_queue CoreTiming.global_timer].
  intros H. f_equal.
  induction q as [|ev q IH]; [reflexivity|].
  cbn [filter] in *. destruct (CoreTiming.matches event_type ud ev); [discriminate H|].
  cbn [negb]. rewrite IH by exact H. reflexivity.
Qed.

Lemma filter_AddEventToQueue_skip (f : CoreTiming.Event -> bool)
      (ne : CoreTiming.Event) (q : list CoreTiming.Event) :
  f ne = false -> filter f (CoreTiming.AddEventToQueue ne q) = filter f q.
Proof.
  intros Hne. induction q as [|ev q IH]; cbn [CoreTiming.AddEventToQueue filter].
  - rewrite Hne. reflexivity.
  - destruct (CoreTiming.time ne <? CoreTiming.time ev); cbn [filter].
    + rewrite Hne. reflexivity.
    + rewrite IH. reflexivity.
Qed.

Lemma filter_AddEventToQueue_only (f : CoreTiming.Event -> bool)
      (ne : CoreTiming.Event) (q : list CoreTiming.Event) :
  f ne = true -> filter f q = [] -> filter f (CoreTiming.AddEventToQueue ne q) = [ne].
Proof.
  intros Hne. induction q as [|ev q IH]; cbn [CoreTiming.AddEventToQueue filter].
  - intros _. rewrite Hne. reflexivity.
  - destruct (f ev) eqn:Hev; [discriminate|]. intros Hq.
    destruct (CoreTiming.time ne <? CoreTiming.time ev); cbn [filter].
    + rewrite Hne, Hev, Hq. reflexivity.
    + rewrite Hev. apply IH. exact Hq.
Qed.

Lemma matches_own (t : Z) :
  CoreTiming.matches event_type ud (CoreTiming.mkEvent t event_type ud) = true.
Proof.
  unfold CoreTiming.matches. cbn [CoreTiming.type CoreTiming.userdata].
  rewrite !Z.eqb_refl. reflexivity.
Qed.

Lemma pending_ScheduleEvent_fresh (cycles : Z) (s : CoreTiming.State) :
  CoreTiming.pending event_type ud s = [] ->
  CoreTiming.pending event_type ud (CoreTiming.ScheduleEvent cycles event_type ud s) =
  [CoreTiming.mkEvent (CoreTiming.global_timer s + cycles) event_type ud].
Proof.
  unfold CoreTiming.pending, CoreTiming.ScheduleEvent. cbn [CoreTiming.event_queue].
  apply filter_AddEventToQueue_only. apply matches_own.
Qed.

Lemma others_ScheduleEvent (cycles : Z) (s : CoreTiming.State) :
  CoreTiming.others event_type ud (CoreTiming.ScheduleEvent cycles event_type ud s) =
  CoreTiming.others event_type ud s.
Proof.
  unfold CoreTiming.others, CoreTiming.ScheduleEvent. cbn [CoreTiming.event_queue].
  apply filter_AddEventToQueue_skip. rewrite matches_own. reflexivity.
Qed.

End Queue.

Lemma sent_packets_app (cs ds : list Call) :
  sent_packets (cs ++ ds) = sent_packets cs ++ sent_packets ds.
Proof.
  induction cs as [|c cs IH]; [reflexivity|].
  destruct c; cbn [sent_packets app]; rewrite IH; reflexivity.
Qed.

(** ** Status configuration *)

(** C4. A status-configuration request of exactly 3 bytes with period byte
    [p] makes two calls to the scheduler, in this order: one cancellation of
    the pending broadcast callback, then one scheduling of it
    [msToCycles p] cycles ahead, after the period has been set to [p].
    Whatever was pending before (whatever the phase of an earlier period),
    the only pending broadcast tick afterwards is the new one, due exactly
    [msToCycles p] cycles after the time of processing; events of other
    types are untouched. *)
Theorem status_request_rearms
        (msToCycles : Z -> Z) (b0 p b2 : byte) (w : World) :
  let cb := send_callback (dev w) in
  let cycles := msToCycles (u8_to_Z p) in
  Receive msToCycles [x01; p; b2] w = HandleReadHIDStatusRequest msToCycles [x01; p; b2] w /\
  exists w',
    HandleReadHIDStatusRequest msToCycles [b0; p; b2] w = Some w' /\
    calls w' = calls w ++ [UnscheduleEvent cb 0; ScheduleEvent cycles cb] /\
    hid_period (dev w') = p /\
    CoreTiming.pending cb 0 (timing w') =
      [CoreTiming.mkEvent (CoreTiming.global_timer (timing w) + cycles) cb 0] /\
    CoreTiming.others cb 0 (timing w') = CoreTiming.others cb 0 (timing w) /\
    CoreTiming.global_timer (timing w') = CoreTiming.global_timer (timing w).
Proof.
  intros cb cycles. split; [reflexivity|].
  eexists. split; [reflexivity|].
  cbn [set_timing call set_dev dev timing calls set_hid_period hid_period send_callback].
  fold cb. fold cycles.
  split; [rewrite <- app_assoc; reflexivity|].
  split; [reflexivity|].
  split; [|split].
  - rewrite pending_ScheduleEvent_fresh by apply pending_UnscheduleEvent. reflexivity.
  - rewrite others_ScheduleEvent. apply others_UnscheduleEvent.
  - reflexivity.
Qed.

(** ** Disconnection *)

(** C8. [Disconnect] is a total function: it cannot fail.  It cancels every
    pending broadcast callback of the device and nothing else.  A second
    [Disconnect] leaves the scheduler, the device and the packets sent as the
    first one left them, and a [Disconnect] with nothing pending leaves the
    scheduler as it was. *)
Theorem disconnect_idempotent (w : World) :
  let cb := send_callback (dev w) in
  CoreTiming.pending cb 0 (timing (Disconnect w)) = [] /\
  CoreTiming.others cb 0 (timing (Disconnect w)) = CoreTiming.others cb 0 (timing w) /\
  dev (Disconnect w) = dev w /\
  calls (Disconnect w) = calls w ++ [UnscheduleEvent cb 0] /\
  timing (Disconnect (Disconnect w)) = timing (Disconnect w) /\
  dev (Disconnect (Disconnect w)) = dev (Disconnect w) /\
  sent_packets (calls (Disconnect (Disconnect w))) = sent_packets (calls (Disconnect w)) /\
  (CoreTiming.pending cb 0 (timing w) = [] -> timing (Disconnect w) = timing w).
Proof.
  intros cb. unfold Disconnect.
  cbn [set_timing call dev timing calls]. fold cb.
  split; [apply pending_UnscheduleEvent|].
  split; [apply others_UnscheduleEvent|].
  split; [reflexivity|]. split; [reflexivity|].
  split; [apply UnscheduleEvent_idempotent|].
  split; [reflexivity|].
  split.
  - rewrite !sent_packets_app. cbn [sent_packets]. rewrite !app_nil_r. reflexivity.
  - apply UnscheduleEvent_nothing_pending.
Qed.

Lemma disconnect_idempotent_witness :
  CoreTiming.pending 7 0 (timing example_world) = [] /\
  timing (Disconnect example_world) = timing example_world.
Proof.
  split; [reflexivity|].
  apply (disconnect_idempotent example_world). reflexivity.
Defined.

(** ** Rescheduling *)

Lemma calls_after_reload (w : World) :
  calls (after_reload w) = calls w ++ reload_calls w.
Proof.
  unfold after_reload, reload_calls.
  destruct (is_device_reload_pending (dev w)).
  - unfold LoadInputDevices, call, set_dev.
    cbn [dev timing settings live stack_garbage calls].
    rewrite <- !app_assoc. reflexivity.
  - rewrite app_nil_r. reflexivity.
Qed.

Lemma after_reload_handles (w : World) :
  (is_device_reload_pending (dev w) = true ->
   zl (dev (after_reload w)) = Settings.buttons_ZL (settings w) /\
   zr (dev (after_reload w)) = Settings.buttons_ZR (settings w) /\
   c_stick (dev (after_reload w)) = Settings.analogs_CStick (settings w)) /\
  (is_device_reload_pending (dev w) = false -> after_reload w = w).
Proof.
  unfold after_reload. destruct (is_device_reload_pending (dev w)); split; intros H;
    try discriminate H; repeat split.
Qed.

Lemma SendHIDStatus_preserves_calibration
      (msToCycles : Z -> Z) (cycles_late : Z) (w w' : World) :
  SendHIDStatus msToCycles cycles_late w = Some w' ->
  calibration_data (dev w') = calibration_data (dev w).
Proof.
  intros Hw. destruct (SendHIDStatus_inv _ _ _ _ Hw) as (fx & fy & _ & _ & ->).
  unfold tick_result. cbn [dev]. apply after_reload_frame.
Qed.

(** What a completed tick tells the scheduler. *)
Lemma tick_schedule (msToCycles : Z -> Z) (w w' : World) (cycles_late : Z) :
  INT_MIN <= cycles_late <= INT_MAX ->
  - 2 ^ 62 <= period_cycles msToCycles w <= 2 ^ 62 ->
  SendHIDStatus msToCycles cycles_late w = Some w' ->
  dev w' = dev (after_reload w) /\
  timing w' =
    CoreTiming.ScheduleEvent (period_cycles msToCycles w - cycles_late)
                             (send_callback (dev w)) 0 (timing w) /\
  exists packet,
    calls w' =
      calls w ++ reload_calls w ++
      tick_calls w packet (period_cycles msToCycles w - cycles_late).
Proof.
  intros HL Hp Hw.
  destruct (SendHIDStatus_inv _ _ _ _ Hw) as (fx & fy & _ & _ & ->).
  unfold tick_result. cbn [calls timing dev].
  rewrite wrap_s64_small.
  2:{ unfold INT_MIN, INT_MAX in HL.
      change (2 ^ 62) with 4611686018427387904 in Hp.
      change (2 ^ 31) with 2147483648 in HL.
      change (2 ^ 63) with 9223372036854775808. lia. }
  split; [reflexivity|]. split; [reflexivity|].
  eexists. rewrite calls_after_reload, <- app_assoc. reflexivity.
Qed.

Lemma SendHIDStatus_completes (msToCycles : Z -> Z) (cycles_late : Z) (w : World) :
  axes_in_range w = true ->
  exists w', SendHIDStatus msToCycles cycles_late w = Some w'.
Proof.
  intros Hr.
  destruct (SendHIDStatus_defined msToCycles cycles_late w Hr)
    as (fx & fy & _ & _ & _ & _ & Hw).
  eexists. exact Hw.
Qed.

(** C3. A tick whose sampled axes are within [-1, 1] runs to completion,
    and every tick that completes with reported lateness [L] makes exactly
    one scheduling call, its last call, with the delay
    [msToCycles period - L].  The next tick is thereby due
    [msToCycles period] cycles after the nominal deadline of the tick that
    has just fired, however late it fired: the lateness does not
    accumulate. *)
Theorem tick_drift_correction (msToCycles : Z -> Z) (w : World) (cycles_late : Z) :
  INT_MIN <= cycles_late <= INT_MAX ->
  - 2 ^ 62 <= period_cycles msToCycles w <= 2 ^ 62 ->
  let cb := send_callback (dev w) in
  let delay := period_cycles msToCycles w - cycles_late in
  (axes_in_range w = true ->
   exists w', SendHIDStatus msToCycles cycles_late w = Some w') /\
  forall w' : World,
    SendHIDStatus msToCycles cycles_late w = Some w' ->
    (exists packet,
        calls w' =
          calls w ++ reload_calls w ++
          [ AnalogGetStatus (c_stick (dev w')); ButtonGetStatus (zl (dev w'));
            ButtonGetStatus (zr (dev w')); send_func packet; ScheduleEvent delay cb ]) /\
    timing w' = CoreTiming.ScheduleEvent delay cb 0 (timing w) /\
    hid_period (dev w') = hid_period (dev w) /\
    forall deadline : Z,
      CoreTiming.global_timer (timing w) = deadline + cycles_late ->
      In (CoreTiming.mkEvent (deadline + period_cycles msToCycles w) cb 0)
         (CoreTiming.event_queue (timing w')).
Proof.
  intros HL Hp cb delay. split; [apply SendHIDStatus_completes|].
  intros w' Hw.
  destruct (tick_schedule msToCycles w w' cycles_late HL Hp Hw)
    as (Hdev & Htiming & packet & Hcalls).
  destruct (after_reload_frame w) as (_ & _ & _ & _ & Hper & _).
  split; [exists packet; rewrite Hcalls, Hdev; reflexivity|].
  split; [exact Htiming|]. split; [rewrite Hdev; exact Hper|].
  intros deadline Hnow. rewrite Htiming.
  unfold CoreTiming.ScheduleEvent. cbn [CoreTiming.event_queue].
  replace (deadline + period_cycles msToCycles w)
    with (CoreTiming.global_timer (timing w) + delay) by (unfold delay; lia).
  apply In_AddEventToQueue.
Qed.

Lemma tick_drift_correction_witness :
  exists w',
    SendHIDStatus example_msToCycles 100 reconfigured_world = Some w' /\
    timing w' = CoreTiming.ScheduleEvent (1340617 - 100) 7 0 (timing reconfigured_world) /\
    In (CoreTiming.mkEvent (900 + 1340617) 7 0) (CoreTiming.event_queue (timing w')).
Proof.
  destruct (tick_drift_correction example_msToCycles reconfigured_world 100
              ltac:(vm_compute; split; discriminate)
              ltac:(vm_compute; split; discriminate))
    as (Hex & Hall).
  destruct (Hex ltac:(vm_compute; reflexivity)) as (w' & Hw).
  destruct (Hall w' Hw) as (_ & Ht & _ & Hin).
  exists w'. split; [exact Hw|]. split; [exact Ht|].
  apply (Hin 900). reflexivity.
Defined.

(** C10. The delay is not clamped at zero: in every tick that completes
    with a reported lateness above the period in cycles, the delay handed to
    the scheduler is negative and the deadline of the next tick lies before
    the current time.  Such ticks exist: a tick whose sampled axes are within
    [-1, 1] runs to completion. *)
Theorem tick_delay_not_clamped (msToCycles : Z -> Z) (w : World) (cycles_late : Z) :
  INT_MIN <= cycles_late <= INT_MAX ->
  - 2 ^ 62 <= period_cycles msToCycles w <= 2 ^ 62 ->
  period_cycles msToCycles w < cycles_late ->
  (axes_in_range w = true ->
   exists w', SendHIDStatus msToCycles cycles_late w = Some w') /\
  forall w' : World,
    SendHIDStatus msToCycles cycles_late w = Some w' ->
    exists packet delay,
      calls w' = calls w ++ reload_calls w ++ tick_calls w packet delay /\
      delay = period_cycles msToCycles w - cycles_late /\
      delay < 0 /\
      In (CoreTiming.mkEvent (CoreTiming.global_timer (timing w) + delay)
                             (send_callback (dev w)) 0)
         (CoreTiming.event_queue (timing w')) /\
      CoreTiming.global_timer (timing w) + delay < CoreTiming.global_timer (timing w').
Proof.
  intros HL Hp Hlate. split; [apply SendHIDStatus_completes|].
  intros w' Hw.
  destruct (tick_schedule msToCycles w w' cycles_late HL Hp Hw)
    as (_ & Htiming & packet & Hcalls).
  exists packet, (period_cycles msToCycles w - cycles_late).
  split; [exact Hcalls|]. split; [reflexivity|].
  split; [lia|]. rewrite Htiming.
  unfold CoreTiming.ScheduleEvent.
  cbn [CoreTiming.event_queue CoreTiming.global_timer].
  split; [apply In_AddEventToQueue|lia].
Qed.

Lemma tick_delay_not_clamped_witness :
  exists w' delay,
    SendHIDStatus example_msToCycles 2000000 reconfigured_world = Some w' /\
    In (ScheduleEvent delay 7) (calls w') /\
    delay = 1340617 - 2000000 /\ delay < 0.
Proof.
  destruct (tick_delay_not_clamped example_msToCycles reconfigured_world 2000000
              ltac:(vm_compute; split; discriminate)
              ltac:(vm_compute; split; discriminate)
              ltac:(vm_compute; reflexivity))
    as (Hex & Hall).
  destruct (Hex ltac:(vm_compute; reflexivity)) as (w' & Hw).
  destruct (Hall w' Hw) as (packet & delay & Hcalls & Hd & Hneg & _).
  exists w', delay. split; [exact Hw|].
  split; [|split; [exact Hd|exact Hneg]].
  rewrite Hcalls. apply in_or_app. right. apply in_or_app. right.
  unfold tick_calls. right. right. right. right. left. reflexivity.
Defined.

(** ** Hot reload of the input devices *)

(** C7. [ReloadInputDevices] only sets the pending-reload flag.  A tick that
    finds the flag set clears it and creates the three input devices anew
    from the current settings before it samples them: the statuses it
    queries, and the packet it sends, are those of the new handles.  A tick
    that finds the flag clear creates no device and keeps the handles.  After
    any tick the flag is clear, so the tick that follows creates no device
    either.  A tick whose sampled axes are within [-1, 1] runs to
    completion. *)
Theorem reload_flag_consumed_once (msToCycles : Z -> Z) (w : World) (cycles_late : Z) :
  (is_device_reload_pending (dev (ReloadInputDevices w)) = true /\
   zl (dev (ReloadInputDevices w)) = zl (dev w) /\
   zr (dev (ReloadInputDevices w)) = zr (dev w) /\
   c_stick (dev (ReloadInputDevices w)) = c_stick (dev w) /\
   calls (ReloadInputDevices w) = calls w) /\
  (axes_in_range w = true ->
   exists w', SendHIDStatus msToCycles cycles_late w = Some w') /\
  forall w' : World,
    SendHIDStatus msToCycles cycles_late w = Some w' ->
    is_device_reload_pending (dev w') = false /\
    exists fx fy delay,
      quantize_axis (fst (Input.analog_status (live w) (c_stick (dev w')))) = Some fx /\
      quantize_axis (snd (Input.analog_status (live w) (c_stick (dev w')))) = Some fy /\
      let packet :=
        encode_status (stack_garbage w) fx fy
                      (Input.button_status (live w) (zl (dev w')))
                      (Input.button_status (live w) (zr (dev w'))) in
      let sampling :=
        [ AnalogGetStatus (c_stick (dev w')); ButtonGetStatus (zl (dev w'));
          ButtonGetStatus (zr (dev w')); send_func packet;
          ScheduleEvent delay (send_callback (dev w)) ] in
      (is_device_reload_pending (dev w) = true ->
       zl (dev w') = Settings.buttons_ZL (settings w) /\
       zr (dev w') = Settings.buttons_ZR (settings w) /\
       c_stick (dev w') = Settings.analogs_CStick (settings w) /\
       calls w' =
         calls w ++
         [ CreateButtonDevice (Settings.buttons_ZL (settings w));
           CreateButtonDevice (Settings.buttons_ZR (settings w));
           CreateAnalogDevice (Settings.analogs_CStick (settings w)) ] ++ sampling) /\
      (is_device_reload_pending (dev w) = false ->
       zl (dev w') = zl (dev w) /\ zr (dev w') = zr (dev w) /\
       c_stick (dev w') = c_stick (dev w) /\
       calls w' = calls w ++ sampling) /\
      (forall (late2 : Z) (w'' : World),
          SendHIDStatus msToCycles late2 w' = Some w'' ->
          is_device_reload_pending (dev w'') = false /\
          zl (dev w'') = zl (dev w') /\ zr (dev w'') = zr (dev w') /\
          c_stick (dev w'') = c_stick (dev w') /\
          exists packet2 delay2,
            calls w'' =
              calls w' ++
              [ AnalogGetStatus (c_stick (dev w')); ButtonGetStatus (zl (dev w'));
                ButtonGetStatus (zr (dev w')); send_func packet2;
                ScheduleEvent delay2 (send_callback (dev w)) ]).
Proof.
  split; [repeat split|]. split; [apply SendHIDStatus_completes|].
  intros w0 Hw.
  destruct (SendHIDStatus_inv _ _ _ _ Hw) as (fx & fy & Hfx & Hfy & ->).
  destruct (after_reload_frame w) as (_ & _ & _ & _ & _ & Hcb & _ & Hflag).
  destruct (after_reload_handles w) as [Hset Hclear].
  set (delay := wrap_s64 (period_cycles msToCycles w - cycles_late)).
  set (w' := tick_result msToCycles cycles_late w fx fy) in *.
  assert (Hdev : dev w' = dev (after_reload w)) by reflexivity.
  assert (Hcalls :
            calls w' =
            calls w ++ reload_calls w ++
            tick_calls w (encode_status (stack_garbage w) fx fy (sampled_zl w) (sampled_zr w))
                       delay).
  { unfold w', tick_result. cbn [calls].
    rewrite calls_after_reload, <- app_assoc. reflexivity. }
  rewrite Hdev. split; [exact Hflag|].
  exists fx, fy, delay.
  split; [exact Hfx|]. split; [exact Hfy|].
  cbv zeta. rewrite Hcalls.
  unfold reload_calls, tick_calls, sampled_zl, sampled_zr.
  split; [|split].
  - intros Hp. rewrite Hp. destruct (Hset Hp) as (Hl & Hrr & Hc).
    repeat split; assumption.
  - intros Hp. rewrite Hp. rewrite (Hclear Hp).
    repeat split.
  - intros late2 w'' Hw2.
    destruct (SendHIDStatus_inv _ _ _ _ Hw2) as (fx2 & fy2 & _ & _ & ->).
    assert (Hflag' : is_device_reload_pending (dev w') = false)
      by (rewrite Hdev; exact Hflag).
    destruct (after_reload_handles w') as [_ Hclear'].
    specialize (Hclear' Hflag').
    unfold tick_result. cbn [dev calls]. unfold tick_calls.
    rewrite !Hclear', Hdev.
    split; [exact Hflag|]. repeat split.
    rewrite Hcalls, Hcb. unfold reload_calls, tick_calls. do 2 eexists. reflexivity.
Qed.

Lemma reload_flag_consumed_once_witness :
  exists w',
    SendHIDStatus example_msToCycles 0 reconfigured_world = Some w' /\
    is_device_reload_pending (dev reconfigured_world) = true /\
    is_device_reload_pending (dev w') = false /\
    zl (dev reconfigured_world) = "zl"%string /\
    zl (dev w') = "zl2"%string.
Proof.
  destruct (reload_flag_consumed_once example_msToCycles reconfigured_world 0)
    as (_ & Hex & Hall).
  destruct (Hex ltac:(vm_compute; reflexivity)) as (w' & Hw).
  destruct (Hall w' Hw) as (Hflag & fx & fy & delay & _ & _ & Hset & _).
  destruct (Hset ltac:(reflexivity)) as (Hzl & _).
  exists w'. split; [exact Hw|]. split; [reflexivity|].
  split; [exact Hflag|]. split; [reflexivity|exact Hzl].
Defined.

(** ** The status packet *)

Lemma sent_packets_reload_calls (w : World) : sent_packets (reload_calls w) = [].
Proof. unfold reload_calls. destruct (is_device_reload_pending (dev w)); reflexivity. Qed.

Lemma sent_packets_tick_result (msToCycles : Z -> Z) (cycles_late : Z) (w : World) (fx fy : Z) :
  sent_packets (calls (tick_result msToCycles cycles_late w fx fy)) =
  sent_packets (calls w) ++
  [encode_status (stack_garbage w) fx fy (sampled_zl w) (sampled_zr w)].
Proof.
  unfold tick_result. cbn [calls].
  rewrite calls_after_reload, !sent_packets_app, sent_packets_reload_calls.
  rewrite app_nil_r. reflexivity.
Qed.

(** C5. Every status packet a tick emits has exactly 6 bytes.  The first
    four are the little-endian bytes of the word with the opcode 0x10 in bits
    0-7, the X field in bits 8-19 and the Y field in bits 20-31.  The fifth
    is the status byte: 0x1F in its low five bits, bit 5 set exactly when ZL
    is not pressed, bit 6 set exactly when ZR is not pressed, bit 7 set.  The
    sixth is 0.  Nothing of the uninitialised storage of the packet survives.
    A tick whose axes are within [-1, 1] does emit such a packet. *)
Theorem status_response_layout (msToCycles : Z -> Z) (w : World) (cycles_late : Z) :
  (forall w' : World,
      SendHIDStatus msToCycles cycles_late w = Some w' ->
      exists fx fy b0 b1 b2 b3 st,
        quantize_axis (fst (sampled_axes w)) = Some fx /\
        quantize_axis (snd (sampled_axes w)) = Some fy /\
        sent_packets (calls w') = sent_packets (calls w) ++ [[b0; b1; b2; b3; st; x00]] /\
        le_bytes_u32 b0 b1 b2 b3 = 0x10 + 2 ^ 8 * (fx mod 2 ^ 12) + 2 ^ 20 * (fy mod 2 ^ 12) /\
        u8_to_Z st =
          0x1F + 2 ^ 5 * Z.b2z (negb (sampled_zl w)) + 2 ^ 6 * Z.b2z (negb (sampled_zr w)) + 2 ^ 7 /\
        u8_to_Z st mod 2 ^ 5 = 0x1F /\
        Z.testbit (u8_to_Z st) 5 = negb (sampled_zl w) /\
        Z.testbit (u8_to_Z st) 6 = negb (sampled_zr w) /\
        Z.testbit (u8_to_Z st) 7 = true) /\
  (axes_in_range w = true ->
   exists w', SendHIDStatus msToCycles cycles_late w = Some w').
Proof.
  split.
  - intros w' Hw.
    destruct (SendHIDStatus_inv _ _ _ _ Hw) as (fx & fy & Hfx & Hfy & ->).
    destruct (encode_status_layout (stack_garbage w) fx fy (sampled_zl w) (sampled_zr w))
      as (b0 & b1 & b2 & b3 & st & Hpkt & Hword & Hst).
    exists fx, fy, b0, b1, b2, b3, st.
    split; [exact Hfx|]. split; [exact Hfy|].
    split; [rewrite sent_packets_tick_result, Hpkt; reflexivity|].
    split; [exact Hword|]. split; [exact Hst|].
    rewrite Hst. destruct (sampled_zl w), (sampled_zr w); repeat split.
  - apply SendHIDStatus_completes.
Qed.

Lemma status_response_layout_witness :
  exists w' b0 b1 b2 b3 st,
    SendHIDStatus example_msToCycles 0 reconfigured_world = Some w' /\
    sent_packets (calls w') = [[b0; b1; b2; b3; st; x00]] /\
    le_bytes_u32 b0 b1 b2 b3 = 0x9FF9FF10 /\
    u8_to_Z st = 0xBF.
Proof.
  destruct (status_response_layout example_msToCycles reconfigured_world 0) as [Hall Hex].
  destruct (Hex ltac:(vm_compute; reflexivity)) as (w' & Hw).
  destruct (Hall w' Hw)
    as (fx & fy & b0 & b1 & b2 & b3 & st & Hfx & Hfy & Hsent & Hword & Hst & _).
  exists w', b0, b1, b2, b3, st.
  split; [exact Hw|]. split; [exact Hsent|].
  vm_compute in Hfx. vm_compute in Hfy.
  injection Hfx as <-. injection Hfy as <-.
  split; [exact Hword|exact Hst].
Defined.

(** ** Analog quantisation *)

(** [in_unit_range] is the interval [-1, 1] of the exact values. *)
Lemma in_unit_range_exact (s : bool) (m : positive) (e : Z) :
  Float32.in_unit_range (S754_finite s m e) = true <->
  (- (1) <= Float32.to_Q (S754_finite s m e) <= 1)%Q.
Proof.
  cbn [Float32.in_unit_range Float32.to_Q].
  pose proof (magnitude_pos m e) as Hpos.
  assert (Hmag : (e <=? 0) && (Zpos m <=? 2 ^ (- e)) = true <->
                 (Float32.magnitude m e <= 1)%Q).
  { unfold Float32.magnitude, Qle. rewrite andb_true_iff, Z.leb_le, Z.leb_le.
    destruct (0 <=? e) eqn:He; cbn [Qnum Qden inject_Z].
    - apply Z.leb_le in He.
      assert (H2 : 0 < 2 ^ e) by (apply Z.pow_pos_nonneg; lia).
      split.
      + intros [He0 Hm]. assert (e = 0) by lia. subst e. cbn in Hm |- *. lia.
      + intros H. assert (He0 : e = 0).
        { destruct (Z.eq_dec e 0) as [|Hne]; [assumption|].
          assert (2 ^ 1 <= 2 ^ e) by (apply Z.pow_le_mono_r; lia).
          change (2 ^ 1) with 2 in *. nia. }
        subst e. cbn in H |- *. lia.
    - apply Z.leb_gt in He.
      rewrite Z2Pos.id by (apply Z.pow_pos_nonneg; lia).
      split; [intros [_ Hm]|intros Hm; split]; lia. }
  rewrite Hmag. destruct s.
  - split.
    + intros H. split.
      * apply Qopp_le_compat in H. exact H.
      * apply Qle_trans with 0%Q; [|discriminate].
        apply Qlt_le_weak. apply (Qopp_lt_compat 0). exact Hpos.
    + intros [H _]. apply Qopp_le_compat in H.
      rewrite Qopp_involutive in H. exact H.
  - split.
    + intros H. split; [|exact H].
      apply Qle_trans with 0%Q; [discriminate|]. apply Qlt_le_weak. exact Hpos.
    + intros [_ H]. exact H.
Qed.

(** C2, as the specification words it, fails at a quarter of the range: the
    exact value [0x800 + 0x7FF / 4 = 2559.75] is representable in single
    precision, rounding it to the nearest integer gives 2560, and the tick
    emits 2559 ([0x9FF]) in both fields. *)
Lemma analog_quantization_rounds_counterexample :
  ~ (forall a : Float32.float32,
        Float32.in_unit_range a = true -> quantize_axis a = Some (quantize_spec a)) /\
  valid_binary Float32.prec Float32.emax quarter = true /\
  Float32.in_unit_range quarter = true /\
  (Float32.to_Q quarter == 1 # 4)%Q /\
  (Float32.to_Q (scale_axis quarter) == 10239 # 4)%Q /\
  quantize_spec quarter = 2560 /\
  quantize_axis quarter = Some 2559 /\
  sampled_axes reconfigured_world = (quarter, quarter) /\
  exists w',
    SendHIDStatus example_msToCycles 0 reconfigured_world = Some w' /\
    sent_packets (calls w') = [[x10; xff; xf9; x9f; xbf; x00]] /\
    BitField_Value 8 12 (le_bytes_u32 x10 xff xf9 x9f) = 2559 /\
    BitField_Value 20 12 (le_bytes_u32 x10 xff xf9 x9f) = 2559.
Proof.
  split.
  { intros H. specialize (H quarter eq_refl). vm_compute in H. discriminate H. }
  split; [reflexivity|]. split; [reflexivity|]. split; [reflexivity|].
  split; [reflexivity|]. split; [reflexivity|]. split; [reflexivity|].
  split; [reflexivity|].
  eexists. split; [vm_compute; reflexivity|].
  split; [reflexivity|]. split; reflexivity.
Qed.

(** The two roundings of the single-precision operations are part of the
    result.  Just below 1 the exact value of [0x800 + 0x7FF * a] is below
    4095, the single-precision sum is 4095.0, and the field is 4095. *)
Lemma quantize_axis_just_below_one :
  let a := S754_finite false 16777215 (-24) in
  valid_binary Float32.prec Float32.emax a = true /\
  Float32.in_unit_range a = true /\
  Float32.Qtrunc (inject_Z C_STICK_CENTER + inject_Z C_STICK_RADIUS * Float32.to_Q a) = 4094 /\
  scale_axis a = Float32.of_int 4095 /\
  quantize_axis a = Some 4095.
Proof. repeat split. Qed.

(** C2, amended.  For axes within [-1, 1] the tick completes, and each
    analog field of the packet it emits holds the single-precision value of
    [0x800 + 0x7FF * axis] truncated toward zero.  That value lies between 1
    and 0xFFF, so the 12-bit field holds it unchanged.  An axis at 0 gives
    0x800, at 1 gives 0x800 + 0x7FF and at -1 gives 0x800 - 0x7FF. *)
Theorem analog_quantization (msToCycles : Z -> Z) (w : World) (cycles_late : Z) :
  axes_in_range w = true ->
  (exists w' fx fy b0 b1 b2 b3 st,
      SendHIDStatus msToCycles cycles_late w = Some w' /\
      sent_packets (calls w') = sent_packets (calls w) ++ [[b0; b1; b2; b3; st; x00]] /\
      le_bytes_u32 b0 b1 b2 b3 = 0x10 + 2 ^ 8 * fx + 2 ^ 20 * fy /\
      fx = Float32.Qtrunc (Float32.to_Q (scale_axis (fst (sampled_axes w)))) /\
      fy = Float32.Qtrunc (Float32.to_Q (scale_axis (snd (sampled_axes w)))) /\
      1 <= fx <= 0xFFF /\ 1 <= fy <= 0xFFF /\
      fx mod 2 ^ 12 = fx /\ fy mod 2 ^ 12 = fy) /\
  quantize_axis (S754_zero false) = Some 0x800 /\
  quantize_axis (S754_zero true) = Some 0x800 /\
  quantize_axis (Float32.of_int 1) = Some (0x800 + 0x7FF) /\
  quantize_axis (Float32.of_int (-1)) = Some (0x800 - 0x7FF).
Proof.
  intros Hr. split; [|repeat split].
  destruct (SendHIDStatus_defined msToCycles cycles_late w Hr)
    as (fx & fy & Hfx & Hbx & Hfy & Hby & Hw).
  destruct (encode_status_layout (stack_garbage w) fx fy (sampled_zl w) (sampled_zr w))
    as (b0 & b1 & b2 & b3 & st & Hpkt & Hword & _).
  assert (Hmx : fx mod 2 ^ 12 = fx) by (apply Z.mod_small; change (2 ^ 12) with 4096; lia).
  assert (Hmy : fy mod 2 ^ 12 = fy) by (apply Z.mod_small; change (2 ^ 12) with 4096; lia).
  exists (tick_result msToCycles cycles_late w fx fy), fx, fy, b0, b1, b2, b3, st.
  split; [exact Hw|].
  split; [rewrite sent_packets_tick_result, Hpkt; reflexivity|].
  split; [rewrite Hword, Hmx, Hmy; reflexivity|].
  split; [apply to_u32_truncates; exact Hfx|].
  split; [apply to_u32_truncates; exact Hfy|].
  change 0xFFF with 4095. repeat split; try assumption; lia.
Qed.

Lemma analog_quantization_witness :
  axes_in_range reconfigured_world = true /\
  exists w' b0 b1 b2 b3 st,
    SendHIDStatus example_msToCycles 0 reconfigured_world = Some w' /\
    sent_packets (calls w') = [[b0; b1; b2; b3; st; x00]] /\
    le_bytes_u32 b0 b1 b2 b3 = 0x10 + 2 ^ 8 * 2559 + 2 ^ 20 * 2559.
Proof.
  split; [vm_compute; reflexivity|].
  destruct (analog_quantization example_msToCycles reconfigured_world 0
              ltac:(vm_compute; reflexivity))
    as ((w' & fx & fy & b0 & b1 & b2 & b3 & st & Hw & Hsent & Hword & Hfx & Hfy & _) & _).
  exists w', b0, b1, b2, b3, st.
  split; [exact Hw|]. split; [exact Hsent|].
  rewrite Hword, Hfx, Hfy. reflexivity.
Defined.

(** * Further properties of the peripheral *)

(** ** What a request leaves alone *)

Lemma Receive_cases (msToCycles : Z -> Z) (data : list byte) (w w' : World) :
  Receive msToCycles data w = Some w' ->
  w' = w \/
  (exists packet, w' = call (send_func packet) w) \/
  (exists p b0 b2,
      data = [b0; p; b2] /\
      HandleReadHIDStatusRequest msToCycles [b0; p; b2] w = Some w').
Proof.
  unfold Receive. destruct data as [|b rest]; [discriminate|].
  cbn [vec_at nth_error bind].
  destruct (RequestID_of_u8 b) as [[|]|].
  - destruct (Nat.eq_dec (List.length (b :: rest)) 3) as [E|E].
    + destruct rest as [|p [|b2 [|b3 rest]]]; try discriminate E.
      intros H. right. right. exists p, b, b2. split; [reflexivity|exact H].
    + rewrite status_request_wrong_size by exact E. intros [= <-]. left. reflexivity.
  - unfold HandleReadCalibrationDataRequest.
    destruct (negb (Nat.eqb (List.length (b :: rest)) 6)); [intros [= <-]; left; reflexivity|].
    destruct (read_u16_le (b :: rest) 2); cbn [bind]; [|discriminate].
    destruct (read_u16_le (b :: rest) 4); cbn [bind]; [|discriminate].
    destruct (AlignDown z 16 + AlignDown z0 16 >? calibration_data_size);
      [intros [= <-]; left; reflexivity|].
    destruct (vec_range (b :: rest) 2 6); cbn [bind]; [|discriminate].
    destruct (vec_range (calibration_data (dev w)) _ _); cbn [bind]; [|discriminate].
    intros [= <-]. right. left. eexists. reflexivity.
  - intros [= <-]. left. reflexivity.
Qed.

Lemma request_leaves_input_side_alone_aux
      (msToCycles : Z -> Z) (data : list byte) (w w' : World) :
  Receive msToCycles data w = Some w' ->
  settings w' = settings w /\
  send_callback (dev w') = send_callback (dev w) /\
  exists cs, calls w' = calls w ++ cs /\ request_calls_shape cs = true.
Proof.
  intros H. destruct (Receive_cases _ _ _ _ H) as [->|[(packet & ->)|(p & b0 & b2 & _ & Hs)]].
  - repeat split. exists []. rewrite app_nil_r. split; reflexivity.
  - repeat split. exists [send_func packet]. split; reflexivity.
  - injection Hs as <-. cbn [set_timing call set_dev dev calls settings send_callback
                             set_hid_period].
    repeat split. eexists. rewrite <- app_assoc. split; reflexivity.
Qed.

(** X1. A request never touches the input side of the peripheral: whatever
    the bytes, the three device handles, the pending-reload flag, the
    calibration blob, the registered event type, the settings and the live
    input are as before, the clock of the scheduler has not moved and the
    events of other components are still queued in the same order.  The calls
    it makes are none, or one send, or one cancellation followed by one
    scheduling: it never creates a device and never queries one. *)
Theorem request_leaves_input_side_alone
        (msToCycles : Z -> Z) (data : list byte) (w w' : World) :
  Receive msToCycles data w = Some w' ->
  zl (dev w') = zl (dev w) /\ zr (dev w') = zr (dev w) /\
  c_stick (dev w') = c_stick (dev w) /\
  is_device_reload_pending (dev w') = is_device_reload_pending (dev w) /\
  calibration_data (dev w') = calibration_data (dev w) /\
  send_callback (dev w') = send_callback (dev w) /\
  settings w' = settings w /\ live w' = live w /\
  CoreTiming.global_timer (timing w') = CoreTiming.global_timer (timing w) /\
  CoreTiming.others (send_callback (dev w)) 0 (timing w') =
    CoreTiming.others (send_callback (dev w)) 0 (timing w) /\
  exists cs, calls w' = calls w ++ cs /\ request_calls_shape cs = true.
Proof.
  intros H. destruct (Receive_cases _ _ _ _ H) as [->|[(packet & ->)|(p & b0 & b2 & _ & Hs)]].
  - repeat split. exists []. rewrite app_nil_r. split; reflexivity.
  - repeat split. exists [send_func packet]. split; reflexivity.
  - injection Hs as <-.
    cbn [set_timing call set_dev dev timing calls settings live set_hid_period
         zl zr c_stick is_device_reload_pending calibration_data send_callback].
    repeat split.
    + rewrite others_ScheduleEvent. apply others_UnscheduleEvent.
    + eexists. rewrite <- app_assoc. split; reflexivity.
Qed.

Lemma request_leaves_input_side_alone_witness :
  exists w',
    Receive example_msToCycles [x01; x05; x00] reconfigured_world = Some w' /\
    zl (dev w') = "zl"%string /\
    is_device_reload_pending (dev w') = true.
Proof.
  eexists. split; [reflexivity|].
  destruct (request_leaves_input_side_alone
              example_msToCycles [x01; x05; x00] reconfigured_world _ eq_refl)
    as (Hzl & _ & _ & Hp & _).
  split; [exact Hzl|exact Hp].
Defined.

(** ** What a tick leaves alone *)

Lemma AddEventToQueue_Permutation (ne : CoreTiming.Event) (q : list CoreTiming.Event) :
  Permutation (CoreTiming.AddEventToQueue ne q) (ne :: q).
Proof.
  induction q as [|ev rest IH]; cbn [CoreTiming.AddEventToQueue].
  - apply Permutation_refl.
  - destruct (CoreTiming.time ne <? CoreTiming.time ev).
    + apply Permutation_refl.
    + eapply Permutation_trans; [apply perm_skip; exact IH|apply perm_swap].
Qed.

(** X2. A tick that completes only adds: it sends exactly one packet and
    queues exactly one event, of the device's own type and with user data 0;
    every event that was queued before, of whatever type, is still queued;
    the period, the calibration blob, the registered event type, the settings,
    the live input and the clock of the scheduler are as before.  A tick
    never cancels anything. *)
Theorem tick_only_adds (msToCycles : Z -> Z) (cycles_late : Z) (w w' : World) :
  SendHIDStatus msToCycles cycles_late w = Some w' ->
  hid_period (dev w') = hid_period (dev w) /\
  calibration_data (dev w') = calibration_data (dev w) /\
  send_callback (dev w') = send_callback (dev w) /\
  settings w' = settings w /\ live w' = live w /\
  CoreTiming.global_timer (timing w') = CoreTiming.global_timer (timing w) /\
  (exists ev,
      CoreTiming.type ev = send_callback (dev w) /\ CoreTiming.userdata ev = 0 /\
      Permutation (CoreTiming.event_queue (timing w'))
                  (ev :: CoreTiming.event_queue (timing w))) /\
  CoreTiming.others (send_callback (dev w)) 0 (timing w') =
    CoreTiming.others (send_callback (dev w)) 0 (timing w) /\
  exists packet,
    sent_packets (calls w') = sent_packets (calls w) ++ [packet] /\
    List.length packet = 6%nat.
Proof.
  intros Hw. destruct (SendHIDStatus_inv _ _ _ _ Hw) as (fx & fy & _ & _ & ->).
  destruct (after_reload_frame w) as (_ & _ & _ & _ & Hper & Hcb & Hblob & _).
  split; [exact Hper|]. split; [exact Hblob|]. split; [exact Hcb|].
  split; [reflexivity|]. split; [reflexivity|]. split; [reflexivity|].
  split; [|split].
  - eexists. split; [|split]; [| |apply AddEventToQueue_Permutation]; reflexivity.
  - unfold tick_result. cbn [timing]. apply others_ScheduleEvent.
  - eexists. split; [apply sent_packets_tick_result|].
    destruct (encode_status_layout (stack_garbage w) fx fy (sampled_zl w) (sampled_zr w))
      as (b0 & b1 & b2 & b3 & st & -> & _). reflexivity.
Qed.

Lemma tick_only_adds_witness :
  exists w',
    SendHIDStatus example_msToCycles 0 reconfigured_world = Some w' /\
    hid_period (dev w') = x05 /\
    List.length (CoreTiming.event_queue (timing w')) = 3%nat.
Proof.
  destruct (SendHIDStatus_completes example_msToCycles 0 reconfigured_world
              ltac:(vm_compute; reflexivity)) as (w' & Hw).
  exists w'. split; [exact Hw|].
  destruct (tick_only_adds example_msToCycles 0 reconfigured_world w' Hw)
    as (Hper & _ & _ & _ & _ & _ & (ev & _ & _ & Hperm) & _).
  split; [exact Hper|].
  rewrite (Permutation_length Hperm). reflexivity.
Defined.

(** ** Histories *)

Lemma Receive_defined (msToCycles : Z -> Z) (b : byte) (rest : list byte) (w : World) :
  List.length (calibration_data (dev w)) = 64%nat ->
  exists w', Receive msToCycles (b :: rest) w = Some w'.
Proof.
  intros Hlen. unfold Receive. cbn [vec_at nth_error bind].
  destruct (RequestID_of_u8 b) as [[|]|].
  - apply status_request_defined.
  - apply calibration_request_defined. exact Hlen.
  - eexists. reflexivity.
Qed.

Lemma step_keeps_device_constants
      (msToCycles : Z -> Z) (op : Operation) (w w' : World) :
  step msToCycles op w = Some w' ->
  calibration_data (dev w') = calibration_data (dev w) /\
  send_callback (dev w') = send_callback (dev w).
Proof.
  destruct op; cbn [step]; try (intros [= <-]; split; reflexivity).
  - intros H. split; [exact (Receive_preserves_calibration _ _ _ _ H)|].
    destruct (Receive_cases _ _ _ _ H) as [->|[(packet & ->)|(p & b0 & b2 & _ & Hs)]];
      try reflexivity.
    injection Hs as <-. reflexivity.
  - intros H. split; [exact (SendHIDStatus_preserves_calibration _ _ _ _ H)|].
    destruct (SendHIDStatus_inv _ _ _ _ H) as (fx & fy & _ & _ & ->).
    unfold tick_result. cbn [dev]. apply after_reload_frame.
Qed.

Lemma run_keeps_device_constants
      (msToCycles : Z -> Z) (ops : list Operation) (w w' : World) :
  run msToCycles ops w = Some w' ->
  calibration_data (dev w') = calibration_data (dev w) /\
  send_callback (dev w') = send_callback (dev w).
Proof.
  revert w. induction ops as [|op rest IH]; intros w; cbn [run].
  - intros [= <-]. split; reflexivity.
  - destruct (step msToCycles op w) as [w1|] eqn:Hstep; cbn [bind]; [|discriminate].
    intros H. destruct (IH _ H) as [Hb Hc].
    destruct (step_keeps_device_constants _ _ _ _ Hstep) as [Hb1 Hc1].
    split; congruence.
Qed.

(** X3. Whatever happens to a peripheral after its construction - requests
    of any content, ticks, reloads, connections and disconnections, changes
    of the input and of the settings - its calibration blob stays the 64
    factory bytes and its event type stays the registered one.  Hence no
    history brings it to a state in which a non-empty request goes wrong. *)
Theorem history_keeps_calibration
        (msToCycles : Z -> Z) (ops : list Operation)
        (registered : Z) (p : byte) (pending : bool) (t : CoreTiming.State)
        (s : Settings.Values) (i : Input.Live) (garbage : Z * Z) (w' : World) :
  run msToCycles ops (construct registered p pending t s i garbage) = Some w' ->
  calibration_data (dev w') = factory_calibration_data /\
  List.length (calibration_data (dev w')) = 64%nat /\
  send_callback (dev w') = registered /\
  forall (b : byte) (rest : list byte),
  exists w'', Receive msToCycles (b :: rest) w' = Some w''.
Proof.
  intros H. destruct (run_keeps_device_constants _ _ _ _ H) as [Hb Hc].
  assert (Hblob : calibration_data (dev w') = factory_calibration_data) by exact Hb.
  split; [exact Hblob|]. split; [rewrite Hblob; reflexivity|].
  split; [exact Hc|].
  intros b rest. apply Receive_defined. rewrite Hblob. reflexivity.
Qed.

Lemma history_keeps_calibration_witness :
  exists w' w'',
    run example_msToCycles example_history example_world = Some w' /\
    calibration_data (dev w') = factory_calibration_data /\
    Receive example_msToCycles [x02; x00; x30; x00; x10; x00] w' = Some w''.
Proof.
  assert (Hrun : exists w', run example_msToCycles example_history example_world = Some w').
  { eexists. vm_compute. reflexivity. }
  destruct Hrun as (w' & Hrun).
  destruct (history_keeps_calibration
              example_msToCycles example_history 7 x00 false
              (CoreTiming.mkState 1000 [CoreTiming.mkEvent 1500 3 0])
              (Settings.mkValues "zl" "zr" "c_stick") example_live (12345678901, 77)
              w' Hrun)
    as (Hblob & _ & _ & Hrecv).
  destruct (Hrecv x02 [x00; x30; x00; x10; x00]) as (w'' & Hw'').
  exists w', w''. split; [exact Hrun|]. split; [exact Hblob|exact Hw''].
Defined.

(** ** Everything ever sent *)

Lemma encode_status_shape (garbage : Z * Z) (fx fy : Z) (zl_pressed zr_pressed : bool) :
  status_response_shape (encode_status garbage fx fy zl_pressed zr_pressed) = true.
Proof.
  destruct (encode_status_layout garbage fx fy zl_pressed zr_pressed)
    as (b0 & b1 & b2 & b3 & st & -> & Hword & Hst).
  cbn [status_response_shape].
  pose proof (u8_to_Z_range b0). pose proof (u8_to_Z_range b1).
  pose proof (u8_to_Z_range b2). pose proof (u8_to_Z_range b3).
  unfold le_bytes_u32 in Hword.
  change (2 ^ 8) with 256 in Hword. change (2 ^ 16) with (256 * 256) in Hword.
  change (2 ^ 24) with (256 * (256 * 256)) in Hword.
  change (2 ^ 20) with (256 * 4096) in Hword.
  assert (Hb0 : u8_to_Z b0 = 16) by lia.
  rewrite Hb0, Hst.
  destruct zl_pressed, zr_pressed; reflexivity.
Qed.

Lemma calibration_window_shape (blob : list byte) (o s : Z) :
  List.length blob = 64%nat -> 0 <= o -> 0 <= s -> floor16 o + floor16 s <= 64 ->
  Nat.modulo (List.length (slice blob (floor16 o) (floor16 o + floor16 s))) 16 = 0%nat /\
  (List.length (slice blob (floor16 o) (floor16 o + floor16 s)) <= 64)%nat.
Proof.
  intros Hlen Ho Hs Hfit.
  destruct (floor16_spec o Ho) as (_ & Ho16 & _).
  destruct (floor16_spec s Hs) as (_ & Hs16 & _).
  pose proof (slice_length blob (floor16 o) (floor16 o + floor16 s)
                           ltac:(lia) ltac:(rewrite Hlen; lia)) as Hl.
  assert (Hn : List.length (slice blob (floor16 o) (floor16 o + floor16 s))
               = (Z.to_nat (s / 16) * 16)%nat).
  { assert (Hfs : floor16 s = 16 * (s / 16)) by reflexivity.
    assert (0 <= s / 16) by (apply Z.div_pos; lia). lia. }
  split.
  - rewrite Hn. apply Nat.Div0.mod_mul.
  - lia.
Qed.

(** What a request adds to the packets sent: nothing, or one calibration
    response of the right shape. *)
Lemma Receive_sends (msToCycles : Z -> Z) (data : list byte) (w w' : World) :
  List.length (calibration_data (dev w)) = 64%nat ->
  Receive msToCycles data w = Some w' ->
  exists ps,
    sent_packets (calls w') = sent_packets (calls w) ++ ps /\
    forallb calibration_response_shape ps = true /\ (List.length ps <= 1)%nat.
Proof.
  intros Hlen H.
  assert (Hnone : forall v, v = w \/
                            (exists p b0 b2, HandleReadHIDStatusRequest msToCycles [b0; p; b2] w = Some v) ->
                            exists ps,
                              sent_packets (calls v) = sent_packets (calls w) ++ ps /\
                              forallb calibration_response_shape ps = true /\
                              (List.length ps <= 1)%nat).
  { intros v [->|(p & b0 & b2 & Hs)]; exists []; rewrite app_nil_r.
    - repeat split. cbn. lia.
    - injection Hs as <-. cbn [set_timing call set_dev calls].
      rewrite !sent_packets_app. cbn [sent_packets]. rewrite !app_nil_r.
      repeat split. cbn. lia. }
  unfold Receive in H. destruct data as [|b rest]; [discriminate|].
  cbn [vec_at nth_error bind] in H.
  destruct (RequestID_of_u8 b) as [[|]|].
  - destruct (Nat.eq_dec (List.length (b :: rest)) 3) as [E|E].
    + destruct rest as [|p [|b2 [|b3 rest]]]; try discriminate E.
      apply Hnone. right. exists p, b, b2. exact H.
    + rewrite status_request_wrong_size in H by exact E. injection H as <-.
      apply Hnone. left. reflexivity.
  - destruct (Nat.eq_dec (List.length (b :: rest)) 6) as [E|E].
    + destruct rest as [|b1 [|ol [|oh [|sl [|sh [|b6 rest]]]]]]; try discriminate E.
      destruct (Z_gt_le_dec (floor16 (le16 ol oh) + floor16 (le16 sl sh)) 64) as [G|L].
      * rewrite calibration_request_rejected in H by exact G. injection H as <-.
        apply Hnone. left. reflexivity.
      * rewrite calibration_request_served in H by assumption. injection H as <-.
        eexists. cbn [call calls]. rewrite sent_packets_app. cbn [sent_packets].
        split; [reflexivity|]. split; [|cbn; lia].
        pose proof (le16_range ol oh). pose proof (le16_range sl sh).
        destruct (calibration_window_shape (calibration_data (dev w))
                                           (le16 ol oh) (le16 sl sh)
                                           Hlen ltac:(lia) ltac:(lia) L) as [Hmod Hle].
        cbn [forallb calibration_response_shape app].
        rewrite Hmod. apply Nat.leb_le in Hle. rewrite Hle. reflexivity.
    + rewrite calibration_request_wrong_size in H by exact E. injection H as <-.
      apply Hnone. left. reflexivity.
  - injection H as <-. apply Hnone. left. reflexivity.
Qed.

Lemma step_sends (msToCycles : Z -> Z) (op : Operation) (w w' : World) :
  List.length (calibration_data (dev w)) = 64%nat ->
  step msToCycles op w = Some w' ->
  exists ps,
    sent_packets (calls w') = sent_packets (calls w) ++ ps /\
    forallb response_shape ps = true.
Proof.
  intros Hlen.
  destruct op; cbn [step];
    try (intros [= <-]; exists []; rewrite app_nil_r; split; reflexivity).
  - intros [= <-]. exists []. unfold Disconnect. cbn [set_timing call calls].
    rewrite sent_packets_app. split; reflexivity.
  - intros H. destruct (Receive_sends _ _ _ _ Hlen H) as (ps & Hps & Hshape & _).
    exists ps. split; [exact Hps|].
    rewrite forallb_forall in Hshape |- *. intros p Hp.
    unfold response_shape. rewrite (Hshape p Hp). apply orb_true_r.
  - intros H. destruct (SendHIDStatus_inv _ _ _ _ H) as (fx & fy & _ & _ & ->).
    eexists. split; [apply sent_packets_tick_result|].
    cbn [forallb]. unfold response_shape. rewrite encode_status_shape. reflexivity.
Qed.

(** X4. Every packet a peripheral sends in its whole life has one of the two
    response shapes: a six-byte status response that starts with 0x10, has
    the battery and R bits set and ends with 0, or a calibration response
    that starts with 0x11, echoes four bytes and carries 0, 16, 32, 48 or 64
    calibration bytes.  This holds for every history, whatever the requests
    received, the input sampled and the garbage on the stack. *)
Theorem every_packet_has_a_response_shape
        (msToCycles : Z -> Z) (ops : list Operation)
        (registered : Z) (p : byte) (pending : bool) (t : CoreTiming.State)
        (s : Settings.Values) (i : Input.Live) (garbage : Z * Z) (w' : World) :
  run msToCycles ops (construct registered p pending t s i garbage) = Some w' ->
  forall packet : list byte,
    In packet (sent_packets (calls w')) -> response_shape packet = true.
Proof.
  intros Hrun.
  assert (Hgen : forall ops w w',
             List.length (calibration_data (dev w)) = 64%nat ->
             forallb response_shape (sent_packets (calls w)) = true ->
             run msToCycles ops w = Some w' ->
             forallb response_shape (sent_packets (calls w')) = true).
  { clear. induction ops as [|op rest IH]; intros w w' Hlen Hall; cbn [run].
    - intros [= <-]. exact Hall.
    - destruct (step msToCycles op w) as [w1|] eqn:Hstep; cbn [bind]; [|discriminate].
      destruct (step_sends _ _ _ _ Hlen Hstep) as (ps & Hps & Hshape).
      destruct (step_keeps_device_constants _ _ _ _ Hstep) as [Hb _].
      apply IH.
      + rewrite Hb. exact Hlen.
      + rewrite Hps, forallb_app, Hall, Hshape. reflexivity. }
  intros packet Hin.
  specialize (Hgen ops _ w' (construct_calibration_size registered p pending t s i garbage)
                   eq_refl Hrun).
  rewrite forallb_forall in Hgen. apply Hgen. exact Hin.
Qed.

Lemma every_packet_has_a_response_shape_witness :
  exists w',
    run example_msToCycles example_history example_world = Some w' /\
    List.length (sent_packets (calls w')) = 3%nat /\
    forallb response_shape (sent_packets (calls w')) = true.
Proof.
  assert (Hrun : exists w', run example_msToCycles example_history example_world = Some w').
  { eexists. vm_compute. reflexivity. }
  destruct Hrun as (w' & Hrun).
  exists w'. split; [exact Hrun|].
  split.
  - vm_compute in Hrun. injection Hrun as <-. reflexivity.
  - apply forallb_forall.
    apply (every_packet_has_a_response_shape
             example_msToCycles example_history 7 x00 false
             (CoreTiming.mkState 1000 [CoreTiming.mkEvent 1500 3 0])
             (Settings.mkValues "zl" "zr" "c_stick") example_live (12345678901, 77)
             w' Hrun).
Defined.

(** ** Reading the calibration blob piece by piece *)

Lemma firstn_plus {A : Type} (n m : nat) (l : list A) :
  firstn n l ++ firstn m (skipn n l) = firstn (n + m) l.
Proof.
  revert l. induction n as [|n IH]; intros l; [reflexivity|].
  destruct l as [|a l]; cbn [firstn skipn Nat.add app].
  - rewrite firstn_nil. reflexivity.
  - rewrite IH. reflexivity.
Qed.

Lemma slice_app {A : Type} (v : list A) (a b c : Z) :
  0 <= a <= b -> b <= c -> slice v a b ++ slice v b c = slice v a c.
Proof.
  intros Hab Hbc. unfold slice.
  replace (Z.to_nat b) with (Z.to_nat (b - a) + Z.to_nat a)%nat by lia.
  rewrite <- skipn_skipn, firstn_plus. f_equal. lia.
Qed.

Lemma slice_all {A : Type} (v : list A) : slice v 0 (Z.of_nat (List.length v)) = v.
Proof.
  unfold slice. cbn [Z.to_nat skipn]. rewrite Z.sub_0_r, Nat2Z.id. apply firstn_all.
Qed.

Lemma floor16_cases (z : Z) :
  0 <= z -> exists q, floor16 z = 16 * q /\ 16 * q <= z < 16 * q + 16.
Proof.
  intros Hz. exists (z / 16). unfold floor16.
  pose proof (Z.div_mod z 16 ltac:(lia)).
  pose proof (Z.mod_pos_bound z 16 ltac:(lia)). lia.
Qed.

(** X5. Calibration reads compose.  When a second read starts at the aligned
    offset where a first read ended and itself ends inside the blob, both are
    served, in order, and the two windows sent, put end to end, are the
    window of the single read that covers both; when the two cover the blob
    from 0 to 64 they are the whole blob. *)
Theorem calibration_reads_concatenate
        (msToCycles : Z -> Z) (w : World)
        (b1 ol oh sl sh c1 pl ph tl th : byte) :
  List.length (calibration_data (dev w)) = 64%nat ->
  floor16 (le16 pl ph) = floor16 (le16 ol oh) + floor16 (le16 sl sh) ->
  floor16 (le16 pl ph) + floor16 (le16 tl th) <= 64 ->
  exists w1 w2 win1 win2,
    Receive msToCycles [x02; b1; ol; oh; sl; sh] w = Some w1 /\
    Receive msToCycles [x02; c1; pl; ph; tl; th] w1 = Some w2 /\
    sent_packets (calls w2) =
      sent_packets (calls w) ++
      [x11 :: [ol; oh; sl; sh] ++ win1; x11 :: [pl; ph; tl; th] ++ win2] /\
    win1 ++ win2 =
      slice (calibration_data (dev w)) (floor16 (le16 ol oh))
            (floor16 (le16 pl ph) + floor16 (le16 tl th)) /\
    (floor16 (le16 ol oh) = 0 -> floor16 (le16 pl ph) + floor16 (le16 tl th) = 64 ->
     win1 ++ win2 = calibration_data (dev w)).
Proof.
  intros Hlen Hnext Hfit.
  pose proof (le16_range ol oh) as Ho. pose proof (le16_range sl sh) as Hs.
  pose proof (le16_range pl ph) as Hp. pose proof (le16_range tl th) as Ht.
  destruct (floor16_spec (le16 ol oh) ltac:(lia)) as (_ & Ho16 & _).
  destruct (floor16_spec (le16 sl sh) ltac:(lia)) as (_ & Hs16 & _).
  destruct (floor16_spec (le16 pl ph) ltac:(lia)) as (_ & Hp16 & _).
  destruct (floor16_spec (le16 tl th) ltac:(lia)) as (_ & Ht16 & _).
  do 4 eexists.
  split.
  { change (Receive msToCycles [x02; b1; ol; oh; sl; sh] w)
      with (HandleReadCalibrationDataRequest [x02; b1; ol; oh; sl; sh] w).
    apply calibration_request_served; [exact Hlen|lia]. }
  split.
  { change (Receive msToCycles [x02; c1; pl; ph; tl; th] ?v)
      with (HandleReadCalibrationDataRequest [x02; c1; pl; ph; tl; th] v).
    apply calibration_request_served; [exact Hlen|exact Hfit]. }
  cbn [call calls dev].
  split.
  { rewrite !sent_packets_app. cbn [sent_packets]. rewrite <- app_assoc. reflexivity. }
  assert (Hcat :
            slice (calibration_data (dev w)) (floor16 (le16 ol oh))
                  (floor16 (le16 ol oh) + floor16 (le16 sl sh)) ++
            slice (calibration_data (dev w)) (floor16 (le16 pl ph))
                  (floor16 (le16 pl ph) + floor16 (le16 tl th)) =
            slice (calibration_data (dev w)) (floor16 (le16 ol oh))
                  (floor16 (le16 pl ph) + floor16 (le16 tl th))).
  { rewrite <- Hnext. apply slice_app; lia. }
  split; [exact Hcat|].
  intros H0 H64. rewrite Hcat, H0, H64.
  change 64 with (Z.of_nat 64). rewrite <- Hlen. apply slice_all.
Qed.

Lemma calibration_reads_concatenate_witness :
  exists w2,
    run example_msToCycles
        [OpReceive [x02; x00; x05; x00; x2f; x00]; OpReceive [x02; x00; x20; x00; x20; x00]]
        example_world = Some w2 /\
    exists echo1 win1 echo2 win2,
      sent_packets (calls w2) = [x11 :: echo1 ++ win1; x11 :: echo2 ++ win2] /\
      List.length echo1 = 4%nat /\ List.length echo2 = 4%nat /\
      win1 ++ win2 = factory_calibration_data.
Proof.
  destruct (calibration_reads_concatenate
              example_msToCycles example_world x00 x05 x00 x2f x00 x00 x20 x00 x20 x00
              eq_refl eq_refl ltac:(vm_compute; discriminate))
    as (w1 & w2 & win1 & win2 & H1 & H2 & Hsent & _ & Hall).
  exists w2. split.
  - cbn [run step bind]. rewrite H1. cbn [bind]. rewrite H2. reflexivity.
  - exists [x05; x00; x2f; x00], win1, [x20; x00; x20; x00], win2.
    split; [exact Hsent|]. split; [reflexivity|]. split; [reflexivity|].
    apply Hall; reflexivity.
Defined.

(** X6. The edges of the calibration window.  A read whose size is below 16
    is answered with the five header bytes and no calibration byte, also at
    the offsets 64 to 79, where the aligned offset is the end of the blob.  A
    read whose offset or whose size is 80 or more is dropped, whatever the
    other one is: the sum of the two is not reduced modulo 2^16. *)
Theorem calibration_window_edges
        (msToCycles : Z -> Z) (w : World) (b1 ol oh sl sh : byte) :
  List.length (calibration_data (dev w)) = 64%nat ->
  (le16 sl sh < 16 -> le16 ol oh < 80 ->
   Receive msToCycles [x02; b1; ol; oh; sl; sh] w =
   Some (call (send_func [x11; ol; oh; sl; sh]) w)) /\
  (80 <= le16 ol oh \/ 80 <= le16 sl sh ->
   Receive msToCycles [x02; b1; ol; oh; sl; sh] w = Some w).
Proof.
  intros Hlen.
  pose proof (le16_range ol oh) as Ho. pose proof (le16_range sl sh) as Hs.
  destruct (floor16_cases (le16 ol oh) ltac:(lia)) as (qo & Hqo & Hbo).
  destruct (floor16_cases (le16 sl sh) ltac:(lia)) as (qs & Hqs & Hbs).
  change (Receive msToCycles [x02; b1; ol; oh; sl; sh] w)
    with (HandleReadCalibrationDataRequest [x02; b1; ol; oh; sl; sh] w).
  split.
  - intros Hsmall Hoff.
    rewrite calibration_request_served by (try assumption; lia).
    replace (floor16 (le16 sl sh)) with 0 by lia.
    rewrite Z.add_0_r. unfold slice. rewrite Z.sub_diag. reflexivity.
  - intros Hbig. apply calibration_request_rejected. lia.
Qed.

Lemma calibration_window_edges_witness :
  Receive example_msToCycles [x02; x00; x4f; x00; x0f; x00] example_world =
    Some (call (send_func [x11; x4f; x00; x0f; x00]) example_world) /\
  Receive example_msToCycles [x02; x00; xf0; xff; x10; x00] example_world =
    Some example_world.
Proof.
  destruct (calibration_window_edges example_msToCycles example_world
                                     x00 x4f x00 x0f x00 eq_refl) as [Hsmall _].
  destruct (calibration_window_edges example_msToCycles example_world
                                     x00 xf0 xff x10 x00 eq_refl) as [_ Hbig].
  split.
  - apply Hsmall; reflexivity.
  - apply Hbig. left. vm_compute. discriminate.
Defined.

(** ** The status packet determines what was sampled *)

Lemma encode_status_garbage (g1 g2 : Z * Z) (fx fy : Z) (zl_pressed zr_pressed : bool) :
  encode_status g1 fx fy zl_pressed zr_pressed = encode_status g2 fx fy zl_pressed zr_pressed.
Proof.
  unfold encode_status. cbv zeta. rewrite !c_stick_word, !buttons_byte. reflexivity.
Qed.

(** X7. The status packet is a faithful encoding.  Two packets are equal
    exactly when the two 12-bit axis values and the two button states they
    were built from are equal: the receiver can recover all four, and the
    uninitialised storage the packet is assembled in has no influence on
    it. *)
Theorem status_encoding_faithful
        (g1 g2 : Z * Z) (fx fy fx' fy' : Z) (zl_pressed zr_pressed zl_pressed' zr_pressed' : bool) :
  0 <= fx < 2 ^ 12 -> 0 <= fy < 2 ^ 12 -> 0 <= fx' < 2 ^ 12 -> 0 <= fy' < 2 ^ 12 ->
  (encode_status g1 fx fy zl_pressed zr_pressed =
   encode_status g2 fx' fy' zl_pressed' zr_pressed'
   <->
   fx = fx' /\ fy = fy' /\ zl_pressed = zl_pressed' /\ zr_pressed = zr_pressed').
Proof.
  intros Hx Hy Hx' Hy'. split.
  - intros Heq.
    destruct (encode_status_layout g1 fx fy zl_pressed zr_pressed)
      as (b0 & b1 & b2 & b3 & st & Hp & Hword & Hst).
    destruct (encode_status_layout g2 fx' fy' zl_pressed' zr_pressed')
      as (c0 & c1 & c2 & c3 & st' & Hp' & Hword' & Hst').
    rewrite Hp, Hp' in Heq. injection Heq as -> -> -> -> ->.
    rewrite Hword' in Hword. rewrite Hst' in Hst.
    rewrite !Z.mod_small in Hword by assumption.
    change (2 ^ 12) with 4096 in *. change (2 ^ 8) with 256 in Hword.
    change (2 ^ 20) with (256 * 4096) in Hword.
    split; [lia|]. split; [lia|].
    destruct zl_pressed, zr_pressed, zl_pressed', zr_pressed';
      cbn in Hst; try discriminate Hst; split; reflexivity.
  - intros (-> & -> & -> & ->). apply encode_status_garbage.
Qed.

Lemma status_encoding_faithful_witness :
  encode_status (12345678901, 77) 2559 1 false true =
  encode_status (0, 0) 2559 1 false true /\
  encode_status (0, 0) 2559 1 false true <> encode_status (0, 0) 2559 1 true true.
Proof.
  pose proof (status_encoding_faithful (12345678901, 77) (0, 0) 2559 1 2559 1
                                       false true false true
                                       ltac:(vm_compute; split; [discriminate|reflexivity])
                                       ltac:(vm_compute; split; [discriminate|reflexivity])
                                       ltac:(vm_compute; split; [discriminate|reflexivity])
                                       ltac:(vm_compute; split; [discriminate|reflexivity])) as H1.
  pose proof (status_encoding_faithful (0, 0) (0, 0) 2559 1 2559 1
                                       false true true true
                                       ltac:(vm_compute; split; [discriminate|reflexivity])
                                       ltac:(vm_compute; split; [discriminate|reflexivity])
                                       ltac:(vm_compute; split; [discriminate|reflexivity])
                                       ltac:(vm_compute; split; [discriminate|reflexivity])) as H2.
  split.
  - apply H1. repeat split.
  - intros Heq. apply H2 in Heq. destruct Heq as (_ & _ & Hzl & _). discriminate Hzl.
Defined.

(** ** Arming, re-arming and disarming *)

Lemma UnscheduleEvent_ScheduleEvent (cycles event_type ud : Z) (s : CoreTiming.State) :
  CoreTiming.UnscheduleEvent event_type ud (CoreTiming.ScheduleEvent cycles event_type ud s) =
  CoreTiming.UnscheduleEvent event_type ud s.
Proof.
  unfold CoreTiming.UnscheduleEvent, CoreTiming.ScheduleEvent.
  cbn [CoreTiming.global_timer CoreTiming.event_queue]. f_equal.
  apply filter_AddEventToQueue_skip. rewrite matches_own. reflexivity.
Qed.

(** X8. Status requests do not accumulate.  After two status requests in a
    row the scheduler and the device are exactly as after the second one
    alone: one broadcast tick is pending, due the second period after the
    current time, and nothing of the first request is left.  The first and
    the third byte of a request play no part. *)
Theorem status_requests_do_not_accumulate
        (msToCycles : Z -> Z) (w : World) (p1 r1 p2 r2 : byte) :
  exists w1 w2 w2',
    Receive msToCycles [x01; p1; r1] w = Some w1 /\
    Receive msToCycles [x01; p2; r2] w1 = Some w2 /\
    Receive msToCycles [x01; p2; r2] w = Some w2' /\
    timing w2 = timing w2' /\ dev w2 = dev w2' /\
    CoreTiming.pending (send_callback (dev w)) 0 (timing w2) =
      [CoreTiming.mkEvent (CoreTiming.global_timer (timing w) + msToCycles (u8_to_Z p2))
                          (send_callback (dev w)) 0].
Proof.
  do 3 eexists.
  split; [reflexivity|]. split; [reflexivity|]. split; [reflexivity|].
  cbn [set_timing call set_dev dev timing calls set_hid_period hid_period send_callback
       calibration_data zl zr c_stick is_device_reload_pending].
  rewrite UnscheduleEvent_ScheduleEvent, UnscheduleEvent_idempotent.
  split; [reflexivity|]. split; [reflexivity|].
  rewrite pending_ScheduleEvent_fresh by apply pending_UnscheduleEvent. reflexivity.
Qed.

(** X9. [Disconnect] disarms.  After a status request followed by
    [Disconnect] the scheduler is exactly as after [Disconnect] alone: no
    broadcast tick is pending, the events of other components are untouched.
    The period the request has set stays in the device. *)
Theorem disconnect_disarms (msToCycles : Z -> Z) (w : World) (p r : byte) :
  exists w1,
    Receive msToCycles [x01; p; r] w = Some w1 /\
    timing (Disconnect w1) = timing (Disconnect w) /\
    CoreTiming.pending (send_callback (dev w)) 0 (timing (Disconnect w1)) = [] /\
    hid_period (dev (Disconnect w1)) = p.
Proof.
  eexists. split; [reflexivity|].
  unfold Disconnect.
  cbn [set_timing call set_dev dev timing calls set_hid_period hid_period send_callback].
  rewrite UnscheduleEvent_ScheduleEvent, UnscheduleEvent_idempotent.
  split; [reflexivity|]. split; [apply pending_UnscheduleEvent|reflexivity].
Qed.

(** ** Reload requests *)

(** X10. Reload requests coalesce and are not lost.  Requesting a reload
    twice is the same as requesting it once; a request received, or a
    disconnection, after the reload request finds and leaves the flag set, and
    has the effect it would have had before it.  So however many reloads are
    requested and whatever is received before the next tick, that tick
    creates the three devices exactly once. *)
Theorem reload_requests_coalesce
        (msToCycles : Z -> Z) (w : World) (data : list byte) (cycles_late : Z) :
  ReloadInputDevices (ReloadInputDevices w) = ReloadInputDevices w /\
  Receive msToCycles data (ReloadInputDevices w) =
    option_map ReloadInputDevices (Receive msToCycles data w) /\
  Disconnect (ReloadInputDevices w) = ReloadInputDevices (Disconnect w) /\
  forall w1 w2 : World,
    Receive msToCycles data (ReloadInputDevices (ReloadInputDevices w)) = Some w1 ->
    SendHIDStatus msToCycles cycles_late w1 = Some w2 ->
    exists cs packet cycles,
      calls w2 =
        calls w ++ cs ++
        [ CreateButtonDevice (Settings.buttons_ZL (settings w));
          CreateButtonDevice (Settings.buttons_ZR (settings w));
          CreateAnalogDevice (Settings.analogs_CStick (settings w));
          AnalogGetStatus (Settings.analogs_CStick (settings w));
          ButtonGetStatus (Settings.buttons_ZL (settings w));
          ButtonGetStatus (Settings.buttons_ZR (settings w));
          send_func packet; ScheduleEvent cycles (send_callback (dev w)) ] /\
      request_calls_shape cs = true /\
      is_device_reload_pending (dev w2) = false.
Proof.
  assert (Hcomm : Receive msToCycles data (ReloadInputDevices w) =
                  option_map ReloadInputDevices (Receive msToCycles data w)).
  { unfold Receive. destruct data as [|b rest]; [reflexivity|].
    cbn [vec_at nth_error bind].
    destruct (RequestID_of_u8 b) as [[|]|]; [| |reflexivity].
    - unfold HandleReadHIDStatusRequest.
      destruct (negb (Nat.eqb (List.length (b :: rest)) 3)); [reflexivity|].
      destruct (vec_at (b :: rest) 1); reflexivity.
    - unfold HandleReadCalibrationDataRequest.
      destruct (negb (Nat.eqb (List.length (b :: rest)) 6)); [reflexivity|].
      destruct (read_u16_le (b :: rest) 2); cbn [bind]; [|reflexivity].
      destruct (read_u16_le (b :: rest) 4); cbn [bind]; [|reflexivity].
      destruct (AlignDown z 16 + AlignDown z0 16 >? calibration_data_size); [reflexivity|].
      destruct (vec_range (b :: rest) 2 6); cbn [bind]; [|reflexivity].
      change (calibration_data (dev (ReloadInputDevices w))) with (calibration_data (dev w)).
      destruct (vec_range (calibration_data (dev w)) _ _); reflexivity. }
  split; [reflexivity|]. split; [exact Hcomm|]. split; [reflexivity|].
  intros w1 w2 Hrecv Htick.
  change (ReloadInputDevices (ReloadInputDevices w)) with (ReloadInputDevices w) in Hrecv.
  rewrite Hcomm in Hrecv.
  destruct (Receive msToCycles data w) as [v|] eqn:Hv; [|discriminate].
  cbn [option_map] in Hrecv. injection Hrecv as <-.
  destruct (request_leaves_input_side_alone_aux msToCycles data w v Hv)
    as (Hset & Hcb & cs & Hcs & Hshape).
  destruct (SendHIDStatus_inv _ _ _ _ Htick) as (fx & fy & _ & _ & ->).
  exists cs. do 2 eexists.
  unfold tick_result. cbn [calls dev].
  rewrite calls_after_reload. unfold reload_calls, tick_calls, after_reload.
  cbn [ReloadInputDevices set_dev dev set_reload_pending is_device_reload_pending
       settings calls LoadInputDevices call set_devices zl zr c_stick send_callback].
  rewrite Hset, Hcs, Hcb, <- !app_assoc.
  split; [reflexivity|]. split; [exact Hshape|reflexivity].
Qed.

Lemma reload_requests_coalesce_witness :
  exists w1 w2,
    Receive example_msToCycles [x01; x05; x00]
            (ReloadInputDevices (ReloadInputDevices example_world)) = Some w1 /\
    SendHIDStatus example_msToCycles 0 w1 = Some w2 /\
    is_device_reload_pending (dev w1) = true /\
    is_device_reload_pending (dev w2) = false.
Proof.
  destruct (reload_requests_coalesce example_msToCycles example_world [x01; x05; x00] 0)
    as (_ & _ & _ & Htick).
  assert (Hrecv : exists w1,
             Receive example_msToCycles [x01; x05; x00]
                     (ReloadInputDevices (ReloadInputDevices example_world)) = Some w1 /\
             is_device_reload_pending (dev w1) = true /\
             axes_in_range w1 = true).
  { eexists. split; [reflexivity|]. split; vm_compute; reflexivity. }
  destruct Hrecv as (w1 & Hw1 & Hflag & Hrange).
  destruct (SendHIDStatus_completes example_msToCycles 0 w1 Hrange) as (w2 & Hw2).
  destruct (Htick w1 w2 Hw1 Hw2) as (cs & packet & cycles & _ & _ & Hclear).
  exists w1, w2. repeat split; assumption.
Defined.

(** ** From a status request to the tick *)

(** X11. The period a status request sets is the one the next tick uses.
    After a 3-byte status request with period byte [p], a tick that completes
    with lateness [L] schedules its successor [msToCycles p - L] cycles ahead:
    the calls of the two together are one cancellation, one scheduling
    [msToCycles p] ahead, the reload if one was pending, the three status
    queries, one send of a six-byte packet and one scheduling
    [msToCycles p - L] ahead. *)
Theorem configured_period_drives_the_tick
        (msToCycles : Z -> Z) (w w1 w2 : World) (p r : byte) (cycles_late : Z) :
  INT_MIN <= cycles_late <= INT_MAX ->
  - 2 ^ 62 <= msToCycles (u8_to_Z p) <= 2 ^ 62 ->
  Receive msToCycles [x01; p; r] w = Some w1 ->
  SendHIDStatus msToCycles cycles_late w1 = Some w2 ->
  let cb := send_callback (dev w) in
  exists packet,
    List.length packet = 6%nat /\
    calls w2 =
      calls w ++
      [ UnscheduleEvent cb 0; ScheduleEvent (msToCycles (u8_to_Z p)) cb ] ++
      reload_calls w ++
      [ AnalogGetStatus (c_stick (dev w2)); ButtonGetStatus (zl (dev w2));
        ButtonGetStatus (zr (dev w2)); send_func packet;
        ScheduleEvent (msToCycles (u8_to_Z p) - cycles_late) cb ].
Proof.
  intros HL Hp Hrecv Htick cb.
  injection Hrecv as <-.
  destruct (SendHIDStatus_inv _ _ _ _ Htick) as (fx & fy & _ & _ & ->).
  clear Htick.
  match goal with |- context [tick_result _ _ ?v _ _] => set (w1 := v) in * end.
  assert (Hper : period_cycles msToCycles w1 = msToCycles (u8_to_Z p)) by reflexivity.
  exists (encode_status (stack_garbage w1) fx fy (sampled_zl w1) (sampled_zr w1)).
  split.
  - destruct (encode_status_layout (stack_garbage w1) fx fy (sampled_zl w1) (sampled_zr w1))
      as (b0 & b1 & b2 & b3 & st & -> & _). reflexivity.
  - unfold tick_result. cbn [calls dev].
    rewrite calls_after_reload, Hper, wrap_s64_small.
    2:{ unfold INT_MIN, INT_MAX in HL.
        change (2 ^ 62) with 4611686018427387904 in Hp.
        change (2 ^ 31) with 2147483648 in HL.
        change (2 ^ 63) with 9223372036854775808. lia. }
    unfold tick_calls.
    change (reload_calls w1) with (reload_calls w).
    change (send_callback (dev w1)) with cb.
    change (calls w1)
      with ((calls w ++ [UnscheduleEvent cb 0]) ++ [ScheduleEvent (msToCycles (u8_to_Z p)) cb]).
    rewrite <- !app_assoc. reflexivity.
Qed.

Lemma configured_period_drives_the_tick_witness :
  exists w1 w2,
    Receive example_msToCycles [x01; x05; x00] example_world = Some w1 /\
    SendHIDStatus example_msToCycles 17 w1 = Some w2 /\
    In (ScheduleEvent (1340617 - 17) 7) (calls w2).
Proof.
  assert (Hrecv : exists w1,
             Receive example_msToCycles [x01; x05; x00] example_world = Some w1 /\
             axes_in_range w1 = true).
  { eexists. split; [reflexivity|]. vm_compute. reflexivity. }
  destruct Hrecv as (w1 & Hw1 & Hrange).
  destruct (SendHIDStatus_completes example_msToCycles 17 w1 Hrange) as (w2 & Hw2).
  destruct (configured_period_drives_the_tick
              example_msToCycles example_world w1 w2 x05 x00 17
              ltac:(vm_compute; split; discriminate)
              ltac:(vm_compute; split; discriminate)
              Hw1 Hw2) as (packet & _ & Hcalls).
  exists w1, w2. split; [exact Hw1|]. split; [exact Hw2|].
  rewrite Hcalls. apply in_or_app. right. apply in_or_app. right.
  apply in_or_app. right. right. right. right. right. left. reflexivity.
Defined.

(** ** How far the quantised value is from the exact one *)

(** The product [2047.0f * a] lies between any two integers that enclose
    the exact product. *)
Lemma radius_product_between (s : bool) (m : positive) (e c c' : Z) :
  e <= 0 -> 0 <= c -> c' <= 2047 ->
  c * 2 ^ (- e) <= 2047 * Zpos m <= c' * 2 ^ (- e) ->
  match Float32.mul (Float32.of_int C_STICK_RADIUS) (S754_finite s m e) with
  | S754_zero _ => c = 0
  | S754_finite s' M E =>
      s' = s /\ E <= -13 /\
      (c * 8192) * 2 ^ (-13 - E) <= Zpos M <= (c' * 8192) * 2 ^ (-13 - E)
  | _ => False
  end.
Proof.
  intros He Hc Hc' Hm. rewrite of_int_radius.
  unfold Float32.mul, Float32.prec, Float32.emax. cbn [SFmul].
  assert (H2 : 0 < 2 ^ (- e)) by (apply Z.pow_pos_nonneg; lia).
  pose proof (binary_round_aux_bounds (xorb false s) (16769024 * m) (-13 + e) (-13)
                                      (c * 8192) (c' * 8192)) as H.
  replace (-13 - (-13 + e)) with (- e) in H by lia.
  specialize (H ltac:(lia) ltac:(lia) ltac:(lia)
                ltac:(change (2 ^ 24) with 16777216; lia)
                ltac:(rewrite Pos2Z.inj_mul; nia)).
  destruct (binary_round_aux 24 128 (xorb false s) (Zpos (16769024 * m)) (-13 + e) loc_Exact)
    as [s'|s'| |s' M' E']; try contradiction.
  - destruct H as [_ H]. lia.
  - destruct H as (-> & HE & HM). split; [reflexivity|]. split; assumption.
Qed.

(** The sum [2048.0f + p] lies between any two integers that enclose the
    exact sum. *)
Lemma center_sum_between (s : bool) (M : positive) (E lo hi : Z) :
  E <= -13 -> 1 <= lo -> hi <= 4095 ->
  (lo * 4096) * 2 ^ (-12 - E) <= 16777216 * 2 ^ (-13 - E) + cond_Zopp s (Zpos M)
                              <= (hi * 4096) * 2 ^ (-12 - E) ->
  exists M' E',
    Float32.add (Float32.of_int C_STICK_CENTER) (S754_finite s M E) = S754_finite false M' E' /\
    E' <= -12 /\
    (lo * 4096) * 2 ^ (-12 - E') <= Zpos M' <= (hi * 4096) * 2 ^ (-12 - E').
Proof.
  intros HE Hlo Hhi Hz. rewrite of_int_center.
  unfold Float32.add, Float32.prec, Float32.emax. cbn [SFadd].
  rewrite Z.min_r by lia.
  destruct (shl_align_spec 8388608 (-12) E) as (m1 & e1 & -> & He1 & Hm1).
  destruct (shl_align_spec M E E) as (m2 & e2 & -> & He2 & Hm2).
  rewrite Z.min_r in He1 by lia. rewrite Z.min_id in He2. subst e1 e2.
  rewrite Z.sub_diag, Z.pow_0_r, Z.mul_1_r in Hm2.
  cbn [fst cond_Zopp]. rewrite Hm1, Hm2.
  replace (-12 - E) with (1 + (-13 - E)) in * by lia.
  rewrite Z.pow_add_r, Z.pow_1_r in * by lia.
  set (u := 2 ^ (-13 - E)) in *.
  assert (Hu : 0 < u) by (apply Z.pow_pos_nonneg; lia).
  replace (8388608 * (2 * u)) with (16777216 * u) by lia.
  change (if s then - Zpos M else Zpos M) with (cond_Zopp s (Zpos M)).
  destruct (16777216 * u + cond_Zopp s (Zpos M)) as [|zp|zp]; try lia.
  cbn [binary_normalize]. unfold binary_round.
  destruct (shl_align_spec zp E (fexp 24 128 (Zpos (digits2_pos zp) + E)))
    as (mz & ez & -> & Hez & Hmz).
  assert (Hez' : ez <= E) by lia.
  pose proof (binary_round_aux_bounds false mz ez (-12) (lo * 4096) (hi * 4096)) as H.
  specialize (H ltac:(lia) ltac:(lia) ltac:(lia)
                ltac:(change (2 ^ 24) with 16777216; lia)).
  assert (Hb : (lo * 4096) * 2 ^ (-12 - ez) <= Zpos mz <= (hi * 4096) * 2 ^ (-12 - ez)).
  { rewrite Hmz.
    replace (-12 - ez) with (1 + (-13 - E) + (E - ez)) by lia.
    rewrite !Z.pow_add_r, Z.pow_1_r by lia. fold u.
    assert (HW : 0 < 2 ^ (E - ez)) by (apply Z.pow_pos_nonneg; lia).
    nia. }
  specialize (H Hb).
  destruct (binary_round_aux 24 128 false (Zpos mz) ez loc_Exact)
    as [s'|s'| |s' M' E']; try contradiction.
  - destruct H as [_ H]. lia.
  - destruct H as (-> & HE' & HM'). exists M', E'.
    split; [reflexivity|]. split; assumption.
Qed.

Lemma trunc_mag_between (M : positive) (E lo hi : Z) :
  E <= -12 ->
  (lo * 4096) * 2 ^ (-12 - E) <= Zpos M <= (hi * 4096) * 2 ^ (-12 - E) ->
  lo <= Float32.trunc_mag M E <= hi.
Proof.
  intros HE HM. unfold Float32.trunc_mag.
  replace (0 <=? E) with false by (symmetry; apply Z.leb_gt; lia).
  rewrite Z.shiftr_div_pow2 by lia.
  replace (- E) with (12 + (-12 - E)) by lia.
  rewrite Z.pow_add_r by lia. change (2 ^ 12) with 4096.
  set (v := 2 ^ (-12 - E)) in *.
  assert (Hv : 0 < v) by (apply Z.pow_pos_nonneg; lia).
  split.
  - apply Z.div_le_lower_bound; lia.
  - apply Z.div_le_upper_bound; lia.
Qed.

Lemma quantize_axis_between (s : bool) (m : positive) (e : Z) :
  e <= 0 -> Zpos m <= 2 ^ (- e) ->
  exists v,
    quantize_axis (S754_finite s m e) = Some v /\
    2048 + cond_Zopp s (2047 * Zpos m) / 2 ^ (- e) <= v
         <= 2048 - (- cond_Zopp s (2047 * Zpos m)) / 2 ^ (- e).
Proof.
  intros He Hm.
  set (U := 2 ^ (- e)) in *.
  assert (HU : 0 < U) by (apply Z.pow_pos_nonneg; lia).
  set (c := (2047 * Zpos m) / U).
  set (c' := - ((- (2047 * Zpos m)) / U)).
  pose proof (Z.div_mod (2047 * Zpos m) U ltac:(lia)) as Hd1.
  pose proof (Z.mod_pos_bound (2047 * Zpos m) U HU) as Hr1.
  pose proof (Z.div_mod (- (2047 * Zpos m)) U ltac:(lia)) as Hd2.
  pose proof (Z.mod_pos_bound (- (2047 * Zpos m)) U HU) as Hr2.
  fold c in Hd1. assert (Hc' : (- (2047 * Zpos m)) / U = - c') by (unfold c'; lia).
  rewrite Hc' in Hd2.
  assert (Hc0 : 0 <= c) by (apply Z.div_pos; lia).
  assert (Hcc : c <= c') by nia.
  assert (Hc2047 : c' <= 2047) by nia.
  assert (Hbounds : c * U <= 2047 * Zpos m <= c' * U) by nia.
  assert (Hfl : cond_Zopp s (2047 * Zpos m) / U = if s then - c' else c).
  { destruct s; cbn [cond_Zopp]; [exact Hc'|reflexivity]. }
  assert (Hce : - cond_Zopp s (2047 * Zpos m) / U = if s then c else - c').
  { destruct s; cbn [cond_Zopp]; [rewrite Z.opp_involutive; reflexivity|exact Hc']. }
  rewrite Hfl, Hce.
  pose proof (radius_product_between s m e c c' He Hc0 Hc2047 Hbounds) as Hp.
  unfold quantize_axis, scale_axis.
  destruct (Float32.mul (Float32.of_int C_STICK_RADIUS) (S754_finite s m e))
    as [sp|sp| |sp Mp Ep]; try contradiction.
  - exists 2048. split; [reflexivity|]. destruct s; lia.
  - destruct Hp as (-> & HEp & HMp).
    set (lo := if s then 2048 - c' else 2048 + c).
    set (hi := if s then 2048 - c else 2048 + c').
    destruct (center_sum_between s Mp Ep lo hi HEp) as (M' & E' & -> & HE' & HM').
    + unfold lo. destruct s; lia.
    + unfold hi. destruct s; lia.
    + replace (-12 - Ep) with (1 + (-13 - Ep)) by lia.
      rewrite Z.pow_add_r, Z.pow_1_r by lia.
      assert (Hu : 0 < 2 ^ (-13 - Ep)) by (apply Z.pow_pos_nonneg; lia).
      unfold lo, hi. destruct s; cbn [cond_Zopp]; nia.
    + pose proof (trunc_mag_between M' E' lo hi HE' HM') as Ht.
      exists (Float32.trunc_mag M' E'). cbn [Float32.to_u32].
      replace (Float32.trunc_mag M' E' <? 2 ^ 32) with true.
      * split; [reflexivity|]. unfold lo, hi in Ht. destruct s; lia.
      * symmetry. apply Z.ltb_lt. change (2 ^ 32) with 4294967296.
        unfold hi in Ht. destruct s; lia.
Qed.

Lemma exact_axis_value (s : bool) (m : positive) (e : Z) :
  e <= 0 ->
  (inject_Z C_STICK_CENTER + inject_Z C_STICK_RADIUS * Float32.to_Q (S754_finite s m e) ==
   (2048 * 2 ^ (- e) + cond_Zopp s (2047 * Zpos m)) # Z.to_pos (2 ^ (- e)))%Q.
Proof.
  intros He.
  assert (HU : 0 < 2 ^ (- e)) by (apply Z.pow_pos_nonneg; lia).
  unfold Float32.to_Q, Float32.magnitude, C_STICK_CENTER, C_STICK_RADIUS.
  destruct (0 <=? e) eqn:H0.
  - apply Z.leb_le in H0. assert (e = 0) by lia. subst e.
    change (2 ^ (- 0)) with 1. change (2 ^ 0) with 1.
    destruct s; unfold Qeq, Qplus, Qmult, Qopp, inject_Z; cbn [Qnum Qden cond_Zopp Z.to_pos];
      rewrite ?Pos2Z.inj_mul; ring.
  - destruct s; unfold Qeq, Qplus, Qmult, Qopp, inject_Z; cbn [Qnum Qden cond_Zopp];
      rewrite ?Pos2Z.inj_mul, ?Z2Pos.id by exact HU; ring.
Qed.

Lemma quantize_axis_floor_ceiling (a : Float32.float32) :
  Float32.in_unit_range a = true ->
  exists v,
    quantize_axis a = Some v /\
    Qfloor (inject_Z C_STICK_CENTER + inject_Z C_STICK_RADIUS * Float32.to_Q a) <= v
      <= Qceiling (inject_Z C_STICK_CENTER + inject_Z C_STICK_RADIUS * Float32.to_Q a).
Proof.
  intros Ha. destruct a as [s|s| |s m e]; cbn [Float32.in_unit_range] in Ha;
    try discriminate Ha.
  - exists 2048. split; [destruct s; reflexivity|].
    cbn [Float32.to_Q]. vm_compute. split; discriminate.
  - apply andb_prop in Ha. destruct Ha as [He Hm].
    apply Z.leb_le in He. apply Z.leb_le in Hm.
    destruct (quantize_axis_between s m e He Hm) as (v & Hv & Hb).
    exists v. split; [exact Hv|].
    assert (HU : 0 < 2 ^ (- e)) by (apply Z.pow_pos_nonneg; lia).
    rewrite (Qfloor_comp _ _ (exact_axis_value s m e He)).
    rewrite (Qceiling_comp _ _ (exact_axis_value s m e He)).
    unfold Qceiling. cbn [Qfloor Qopp Qnum Qden].
    rewrite Z2Pos.id by exact HU.
    rewrite Z.opp_add_distr, <- Z.mul_opp_l.
    rewrite !Z.div_add_l by lia. lia.
Qed.

(** X12. The quantisation error is below one step.  For axes within [-1, 1]
    the tick completes, and each analog field of the packet it sends is the
    exact value [0x800 + 0x7FF * axis] rounded down or rounded up to an
    integer: the two single-precision roundings and the truncation together
    never move the field a whole step away from the exact value. *)
Theorem quantization_within_one_step
        (msToCycles : Z -> Z) (w : World) (cycles_late : Z) :
  axes_in_range w = true ->
  let exact (a : Float32.float32) : Q :=
    (inject_Z C_STICK_CENTER + inject_Z C_STICK_RADIUS * Float32.to_Q a)%Q in
  exists w' fx fy b0 b1 b2 b3 st,
    SendHIDStatus msToCycles cycles_late w = Some w' /\
    sent_packets (calls w') = sent_packets (calls w) ++ [[b0; b1; b2; b3; st; x00]] /\
    le_bytes_u32 b0 b1 b2 b3 = 0x10 + 2 ^ 8 * fx + 2 ^ 20 * fy /\
    Qfloor (exact (fst (sampled_axes w))) <= fx <= Qceiling (exact (fst (sampled_axes w))) /\
    Qfloor (exact (snd (sampled_axes w))) <= fy <= Qceiling (exact (snd (sampled_axes w))).
Proof.
  intros Hr exact.
  destruct (SendHIDStatus_defined msToCycles cycles_late w Hr)
    as (fx & fy & Hfx & Hbx & Hfy & Hby & Hw).
  unfold axes_in_range in Hr. apply andb_prop in Hr. destruct Hr as [Hx Hy].
  destruct (quantize_axis_floor_ceiling _ Hx) as (vx & Hvx & Hqx).
  destruct (quantize_axis_floor_ceiling _ Hy) as (vy & Hvy & Hqy).
  rewrite Hfx in Hvx. injection Hvx as <-.
  rewrite Hfy in Hvy. injection Hvy as <-.
  destruct (encode_status_layout (stack_garbage w) fx fy (sampled_zl w) (sampled_zr w))
    as (b0 & b1 & b2 & b3 & st & Hpkt & Hword & _).
  exists (tick_result msToCycles cycles_late w fx fy), fx, fy, b0, b1, b2, b3, st.
  split; [exact Hw|].
  split; [rewrite sent_packets_tick_result, Hpkt; reflexivity|].
  split.
  - rewrite Hword, !Z.mod_small by (change (2 ^ 12) with 4096; lia). reflexivity.
  - split; assumption.
Qed.

Lemma quantization_within_one_step_witness :
  exists w' fx fy,
    SendHIDStatus example_msToCycles 0 reconfigured_world = Some w' /\
    2559 <= fx <= 2560 /\ 2559 <= fy <= 2560 /\
    exists b0 b1 b2 b3 st,
      sent_packets (calls w') = [[b0; b1; b2; b3; st; x00]] /\
      le_bytes_u32 b0 b1 b2 b3 = 0x10 + 2 ^ 8 * fx + 2 ^ 20 * fy.
Proof.
  destruct (quantization_within_one_step example_msToCycles reconfigured_world 0
              ltac:(vm_compute; reflexivity))
    as (w' & fx & fy & b0 & b1 & b2 & b3 & st & Hw & Hsent & Hword & Hx & Hy).
  exists w', fx, fy. split; [exact Hw|].
  split; [exact Hx|]. split; [exact Hy|].
  exists b0, b1, b2, b3, st. split; [exact Hsent|exact Hword].
Defined.

(** ** Destruction *)

(** X13. The destructor leaves no tick behind.  Whatever the history of a
    peripheral - also when the scheduler's queue and clock have changed under
    it - its destruction cancels the events of the type its constructor
    registered: none of them stays pending, and the events of other
    components stay queued, in their order. *)
Theorem destruction_leaves_no_tick
        (msToCycles : Z -> Z) (ops : list Operation)
        (registered : Z) (p : byte) (pending : bool) (t : CoreTiming.State)
        (s : Settings.Values) (i : Input.Live) (garbage : Z * Z) (w' : World) :
  run msToCycles ops (construct registered p pending t s i garbage) = Some w' ->
  CoreTiming.pending registered 0 (timing (destroy w')) = [] /\
  CoreTiming.others registered 0 (timing (destroy w')) =
    CoreTiming.others registered 0 (timing w') /\
  CoreTiming.global_timer (timing (destroy w')) = CoreTiming.global_timer (timing w') /\
  sent_packets (calls (destroy w')) = sent_packets (calls w').
Proof.
  intros H. destruct (run_keeps_device_constants _ _ _ _ H) as [_ Hc].
  change (send_callback (dev (construct registered p pending t s i garbage)))
    with registered in Hc.
  unfold destroy, Disconnect. cbn [set_timing call timing calls dev]. rewrite Hc.
  split; [apply pending_UnscheduleEvent|].
  split; [apply others_UnscheduleEvent|]. split; [reflexivity|].
  rewrite sent_packets_app. cbn [sent_packets]. apply app_nil_r.
Qed.

Lemma destruction_leaves_no_tick_witness :
  exists w',
    run example_msToCycles example_history example_world = Some w' /\
    CoreTiming.pending 7 0 (timing w') = [CoreTiming.mkEvent (5000 + 4289975) 7 0] /\
    CoreTiming.event_queue (timing (destroy w')) = [CoreTiming.mkEvent 5100 3 0].
Proof.
  assert (Hrun : exists w',
             run example_msToCycles example_history example_world = Some w' /\
             CoreTiming.pending 7 0 (timing w') = [CoreTiming.mkEvent (5000 + 4289975) 7 0] /\
             CoreTiming.others 7 0 (timing w') = [CoreTiming.mkEvent 5100 3 0]).
  { eexists. split; [vm_compute; reflexivity|]. split; vm_compute; reflexivity. }
  destruct Hrun as (w' & Hrun & Hpend & Hothers).
  destruct (destruction_leaves_no_tick
              example_msToCycles example_history 7 x00 false
              (CoreTiming.mkState 1000 [CoreTiming.mkEvent 1500 3 0])
              (Settings.mkValues "zl" "zr" "c_stick") example_live (12345678901, 77)
              w' Hrun)
    as (Hnone & Hkeep & _).
  exists w'. split; [exact Hrun|]. split; [exact Hpend|].
  rewrite <- Hothers, <- Hkeep.
  unfold CoreTiming.pending, CoreTiming.others in *.
  generalize dependent (CoreTiming.event_queue (timing (destroy w'))).
  intros q Hq _. clear - Hq.
  induction q as [|ev q IH]; [reflexivity|].
  cbn [filter] in *. destruct (CoreTiming.matches 7 0 ev); [discriminate Hq|].
  cbn [negb]. rewrite <- IH by exact Hq. reflexivity.
Defined.
